(** * azdev style check: a shallow embedding of [azdev/operations/style.py]

    The module selects modules and extensions, runs pylint and flake8 on
    them through a subprocess runner, merges the command results and exits
    with the summed exit code.  Python objects that are shared and mutated
    (the error object carried by a command result) live in an explicit
    heap; calls to the external collaborators are recorded in an event
    trace. *)

From Stdlib Require Import String Ascii List ZArith Bool Lia.
From Stdlib Require Import DecimalString.
Import ListNotations.
Local Open Scope string_scope.
Local Open Scope Z_scope.

(** ** Python string operations used by the module *)
Module PyStr.

(** [sep.join(l)] *)
Definition join (sep : string) (l : list string) : string :=
  String.concat sep l.

(** [s.split(c)] for a one-character separator: never the empty list. *)
Fixpoint split_char (c : ascii) (s : string) : list string :=
  match s with
  | EmptyString => [EmptyString]
  | String a r =>
      if Ascii.eqb a c then EmptyString :: split_char c r
      else match split_char c r with
           | h :: t => String a h :: t
           | [] => [String a EmptyString]
           end
  end.

(** The ASCII characters for which [str.isspace] holds. *)
Definition isspace (a : ascii) : bool :=
  let n := nat_of_ascii a in
  (Nat.eqb n 32 || (Nat.leb 9 n && Nat.leb n 13)
   || (Nat.leb 28 n && Nat.leb n 31))%bool.

Definition flush (acc : string) (k : list string) : list string :=
  match acc with
  | EmptyString => k
  | _ => acc :: k
  end.

Fixpoint split_ws_from (acc : string) (s : string) : list string :=
  match s with
  | EmptyString => flush acc []
  | String a r =>
      if isspace a then flush acc (split_ws_from EmptyString r)
      else split_ws_from (acc ++ String a EmptyString) r
  end.

(** [s.split()]: the maximal runs of non-blank characters. *)
Definition split (s : string) : list string := split_ws_from EmptyString s.

(** [sub in s] *)
Fixpoint contains (sub s : string) : bool :=
  if String.prefix sub s then true
  else match s with
       | EmptyString => false
       | String _ r => contains sub r
       end.

Definition startswith (s p : string) : bool := String.prefix p s.

Fixpoint endswith_char (s : string) (c : ascii) : bool :=
  match s with
  | EmptyString => false
  | String a EmptyString => Ascii.eqb a c
  | String _ r => endswith_char r c
  end.

(** Truth value of a string: the empty string is false. *)
Definition truthy (s : string) : bool :=
  match s with
  | EmptyString => false
  | _ => true
  end.

(** [str(n)] for a non-negative integer. *)
Definition of_nat (n : nat) : string :=
  NilZero.string_of_uint (Nat.to_uint n).

End PyStr.

(** ** [os.path] on a POSIX system *)
Module OsPath.

Definition sep : ascii := "/"%char.

(** [os.path.join(a, b)] *)
Definition join (a b : string) : string :=
  if PyStr.startswith b (String sep EmptyString) then b
  else if (negb (PyStr.truthy a) || PyStr.endswith_char a sep)%bool then a ++ b
  else a ++ String sep b.

Definition join3 (a b c : string) : string := join (join a b) c.

(** Second component of [os.path.split(p)]: what follows the last
    separator. *)
Definition split_tail (p : string) : string :=
  last (PyStr.split_char sep p) EmptyString.

(** [os.path.normcase] is the identity on POSIX. *)
Definition normcase (p : string) : string := p.

End OsPath.

(** ** Data model *)

(** Python objects that are mutated through several references are kept in
    a heap and named by their location. *)
Definition loc := nat.

(** An error object as the module uses it: its string conversion, the
    captured output of the failed command (kept as the text that
    [output.decode('utf-8')] yields), and the [message] attribute, which an
    exception may lack. *)
Record exn_obj := mkExn {
  exn_str : string;
  exn_output : string;
  exn_message : option string
}.

Definition with_message (e : exn_obj) (m : string) : exn_obj :=
  {| exn_str := exn_str e; exn_output := exn_output e; exn_message := Some m |}.

Definition heap := loc -> exn_obj.

Definition upd (h : heap) (l : loc) (e : exn_obj) : heap :=
  fun l' => if Nat.eqb l' l then e else h l'.

(** [knack.util.CommandResultItem], restricted to the three attributes the
    module reads and writes.  The result text is an optional string (the
    subprocess runner's captured text); the error is a reference to an
    error object, which is true as a condition whenever it is present. *)
Record CommandResultItem := mkResult {
  result : option string;
  exit_code : Z;
  error : option loc
}.

(** Modelled from the spec: the constructor [CommandResultItem(None)] of
    knack, which is not part of this repository's sources; a fresh result
    has no result text, exit code 0 and no error. *)
Definition CommandResultItem_None : CommandResultItem :=
  {| result := None; exit_code := 0; error := None |}.

(** The path table: three partitions from a module or extension name to its
    path, in insertion order. *)
Definition partition := list (string * string).

Record path_table := mkTable {
  pt_core : partition;
  pt_mod : partition;
  pt_ext : partition
}.

Definition keys (d : partition) : list string := map fst d.
Definition values (d : partition) : list string := map snd d.

(** [d.pop(k, None)] *)
Definition pop (k : string) (d : partition) : partition :=
  filter (fun kv => negb (String.eqb (fst kv) k)) d.

Inductive exception :=
| CLIError (msg : string)
| ValueError (msg : string)
| IndexError (msg : string)
| AttributeError (msg : string)
| KeyError (msg : string)
| SystemExit (code : Z).

Definition environ := list (string * string).

(** Calls that leave the module. *)
Inductive event :=
| EvHeading (s : string)
| EvDisplay (s : string)
| EvLogError (s : string)
| EvLogDebug (s : string)
| EvGetPathTable (include_only : option (list string))
| EvRequireAzureCli
| EvFilterByGitDiff (t : path_table) (git_source git_target git_repo : option string)
| EvPyCmd (command message : string) (env : option environ).

Definition is_subprocess (e : event) : bool :=
  match e with
  | EvPyCmd _ _ _ => true
  | _ => false
  end.

(** What the subprocess runner hands back: the fields of the command
    result, the error not yet placed in the heap. *)
Record cmd_outcome := mkOutcome {
  co_result : option string;
  co_exit_code : Z;
  co_error : option exn_obj
}.

(** The external collaborators imported from [azdev.utilities], and the
    parts of the system the module consults. *)
Record world := mkWorld {
  get_path_table : option (list string) -> path_table;
  require_azure_cli : option string;
  filter_by_git_diff :
    path_table -> option string -> option string -> option string -> path_table;
  py_cmd : list event -> string -> string -> option environ -> cmd_outcome;
  glob : string -> list string;
  cpu_count : nat;
  EXTENSION_PREFIX : string;
  config_get : string -> string -> string;
  get_azdev_config_dir : string
}.

(** ** Effects: heap, allocation counter and event trace, with exceptions *)

Record state := mkState {
  st_heap : heap;
  st_next : loc;
  st_trace : list event
}.

Definition M (A : Type) : Type := state -> (exception + A) * state.

Definition ret {A} (a : A) : M A := fun s => (inr a, s).

Definition bind {A B} (m : M A) (k : A -> M B) : M B :=
  fun s => match m s with
           | (inl e, s') => (inl e, s')
           | (inr a, s') => k a s'
           end.

Definition raise {A} (e : exception) : M A := fun s => (inl e, s).

(** [try: m except ...: h e]; a handler answering [None] lets the
    exception through. *)
Definition try_except {A} (m : M A) (h : exception -> option (M A)) : M A :=
  fun s => match m s with
           | (inl e, s') => match h e with
                            | Some k => k s'
                            | None => (inl e, s')
                            end
           | r => r
           end.

Declare Scope py_scope.
Delimit Scope py_scope with py.
Notation "x <- c1 ;; c2" := (bind c1 (fun x => c2))
  (at level 61, c1 at next level, right associativity) : py_scope.
Notation "c1 ;; c2" := (bind c1 (fun _ => c2))
  (at level 61, right associativity) : py_scope.
Local Open Scope py_scope.

Definition emit (e : event) : M unit :=
  fun s => (inr tt, {| st_heap := st_heap s; st_next := st_next s;
                       st_trace := st_trace s ++ [e] |}).

Definition when (b : bool) (m : M unit) : M unit :=
  if b then m else ret tt.

(** Attribute access on an error object. *)
Definition getattr_message (l : loc) : M string :=
  fun s => match exn_message (st_heap s l) with
           | Some m => (inr m, s)
           | None => (inl (AttributeError "message"), s)
           end.

Definition setattr_message (l : loc) (m : string) : M unit :=
  fun s => (inr tt, {| st_heap := upd (st_heap s) l (with_message (st_heap s l) m);
                       st_next := st_next s; st_trace := st_trace s |}).

Definition str_of (l : loc) : M string :=
  fun s => (inr (exn_str (st_heap s l)), s).

Definition getattr_output (l : loc) : M string :=
  fun s => (inr (exn_output (st_heap s l)), s).

Definition alloc (e : exn_obj) : M loc :=
  fun s => (inr (st_next s),
            {| st_heap := upd (st_heap s) (st_next s) e;
               st_next := S (st_next s); st_trace := st_trace s |}).

Definition display (s : string) : M unit := emit (EvDisplay s).
Definition heading (s : string) : M unit := emit (EvHeading s).
Definition logger_error (s : string) : M unit := emit (EvLogError s).
Definition logger_debug (s : string) : M unit := emit (EvLogDebug s).

(** ** [_combine_command_result] *)

Definition set_exit_code (r : CommandResultItem) (c : Z) : CommandResultItem :=
  {| result := result r; exit_code := c; error := error r |}.
Definition set_error (r : CommandResultItem) (l : loc) : CommandResultItem :=
  {| result := result r; exit_code := exit_code r; error := Some l |}.
Definition set_result (r : CommandResultItem) (t : option string) : CommandResultItem :=
  {| result := t; exit_code := exit_code r; error := error r |}.

(** Truth value of the [result] attribute. *)
Definition result_truthy (r : option string) : bool :=
  match r with
  | Some t => PyStr.truthy t
  | None => false
  end.

Definition text_of (r : option string) : string :=
  match r with
  | Some t => t
  | None => EmptyString
  end.

(** The inner function [apply_result]; [final] is the [final_result] of the
    enclosing call, threaded through. *)
Definition apply_result (item : option CommandResultItem)
    (final : CommandResultItem) : M CommandResultItem :=
  match item with
  | None => ret final
  | Some item =>
      let final := set_exit_code final (exit_code final + exit_code item) in
      final <-
        match error item with
        | Some li =>
            match error final with
            | Some lf =>
                try_except
                  (m <- getattr_message lf ;;
                   mi <- getattr_message li ;;
                   setattr_message lf (m ++ mi))
                  (fun e => match e with
                            | AttributeError _ =>
                                Some (m <- getattr_message lf ;;
                                      t <- str_of li ;;
                                      setattr_message lf (m ++ t))
                            | _ => None
                            end) ;;
                ret final
            | None =>
                setattr_message li EmptyString ;;
                ret (set_error final li)
            end
        | None => ret final
        end ;;
      if result_truthy (result item) then
        if result_truthy (result final) then
          ret (set_result final (Some (text_of (result final) ++ text_of (result item))))
        else ret (set_result final (result item))
      else ret final
  end.

Definition _combine_command_result (cli_result ext_result : option CommandResultItem)
    : M CommandResultItem :=
  final <- apply_result cli_result CommandResultItem_None ;;
  apply_result ext_result final.

(** ** The style check, over a fixed world *)
Section Style.

Context (W : world).

Definition LF : string := String (ascii_of_nat 10) EmptyString.

(** [d[k]] on a literal dict. *)
Fixpoint dict_get (d : list (string * string)) (k : string) : M string :=
  match d with
  | [] => raise (KeyError k)
  | (k', v) :: d' => if String.eqb k' k then ret v else dict_get d' k
  end.

Definition config_file_mapping : list (string * string) :=
  [("pylint", "pylintrc"); ("flake8", ".flake8")].

Definition default_config_file_mapping_cli : list (string * string) :=
  [("pylint", "cli_pylintrc"); ("flake8", "cli.flake8")].

Definition default_config_file_mapping_ext : list (string * string) :=
  [("pylint", "ext_pylintrc"); ("flake8", "ext.flake8")].

(** The first entry of the configured extension repositories that names
    the extension repository; [None] stands for the [[]] the source falls
    back to, which is false as a condition. *)
Definition ext_repo_path : option string :=
  find (PyStr.contains "azure-cli-extension")
       (PyStr.split (config_get W "ext" "repo_paths")).

Definition _config_file_path (style_type : string) : M (string * string) :=
  let cli_repo_path := config_get W "cli" "repo_path" in
  let ext_repo_path := ext_repo_path in
  if negb (existsb (String.eqb style_type) ["pylint"; "flake8"]) then
    raise (ValueError "style_tyle value allows only: pylint, flake8.")
  else
    cli_config_path <-
      (if PyStr.truthy cli_repo_path then
         f <- dict_get config_file_mapping style_type ;;
         ret (OsPath.join cli_repo_path f)
       else
         f <- dict_get default_config_file_mapping_cli style_type ;;
         ret (OsPath.join3 (get_azdev_config_dir W) "config_files" f)) ;;
    ext_config_path <-
      (match ext_repo_path with
       | Some p =>
           f <- dict_get config_file_mapping style_type ;;
           ret (OsPath.join p f)
       | None =>
           f <- dict_get default_config_file_mapping_ext style_type ;;
           ret (OsPath.join3 (get_azdev_config_dir W) "config_files" f)
       end) ;;
    ret (cli_config_path, ext_config_path).

(** The subprocess runner: the call is recorded, and the error of a
    failed command becomes a new object. *)
Definition call_py_cmd (command message : string) (env : option environ)
    : M CommandResultItem :=
  fun s =>
    let o := py_cmd W (st_trace s) command message env in
    (_ <- emit (EvPyCmd command message env) ;;
     match co_error o with
     | Some e =>
         l <- alloc e ;;
         ret {| result := co_result o; exit_code := co_exit_code o;
                error := Some l |}
     | None =>
         ret {| result := co_result o; exit_code := co_exit_code o;
                error := None |}
     end) s.

(** [get_core_module_paths], inner function of [run_pylint]. *)
Definition core_module_path (p : string) : string :=
  fold_left OsPath.join (PyStr.split_char "-" (OsPath.split_tail p)) p.

Definition get_core_module_paths (modules : path_table) : list string :=
  map core_module_path (values (pt_core modules)).

(** The loop that takes the first glob match under each extension path. *)
Fixpoint ext_glob_paths (paths : list string) : M (list string) :=
  match paths with
  | [] => ret []
  | path :: rest =>
      let glob_pattern := OsPath.normcase (EXTENSION_PREFIX W ++ "*") in
      match glob W (OsPath.join path glob_pattern) with
      | [] => raise (IndexError "list index out of range")
      | first :: _ =>
          more <- ext_glob_paths rest ;;
          ret (first :: more)
      end
  end.

Definition pylint_run (paths : list string) (rcfile desc : string)
    (checkers : option (list string)) (env : option environ)
    (disable_all : bool) (enable : option (list string))
    : M (option CommandResultItem) :=
  match paths with
  | [] => ret None
  | _ =>
      logger_debug ("Using rcfile file: " ++ rcfile) ;;
      logger_debug ("Running on " ++ desc ++ ": " ++ PyStr.join LF paths) ;;
      let command :=
        "pylint " ++ PyStr.join " " paths ++ " --rcfile=" ++ rcfile
        ++ " --jobs " ++ PyStr.of_nat (cpu_count W) in
      let command :=
        match checkers with
        | Some cs => command ++ " --load-plugins " ++ PyStr.join "," cs
        | None => command
        end in
      let command := if disable_all then command ++ " --disable=all" else command in
      let command :=
        match enable with
        | Some es => command ++ " --enable " ++ PyStr.join "," es
        | None => command
        end in
      r <- call_py_cmd command ("Running pylint on " ++ desc ++ "...") env ;;
      ret (Some r)
  end.

Definition run_pylint (modules : path_table)
    (checkers : option (list string)) (env : option environ)
    (disable_all : bool) (enable : option (list string))
    : M CommandResultItem :=
  let cli_paths := (get_core_module_paths modules ++ values (pt_mod modules))%list in
  ext_paths <- ext_glob_paths (values (pt_ext modules)) ;;
  rc <- _config_file_path "pylint" ;;
  let '(cli_pylintrc, ext_pylintrc) := rc in
  cli_result <- pylint_run cli_paths cli_pylintrc "modules"
                  checkers env disable_all enable ;;
  ext_result <- pylint_run ext_paths ext_pylintrc "extensions"
                  checkers env disable_all enable ;;
  _combine_command_result cli_result ext_result.

Definition pep8_run (paths : list string) (rcfile desc : string)
    : M (option CommandResultItem) :=
  match paths with
  | [] => ret None
  | _ =>
      logger_debug ("Using config file: " ++ rcfile) ;;
      logger_debug ("Running on " ++ desc ++ ":" ++ LF ++ PyStr.join LF paths) ;;
      let command :=
        "flake8 --statistics --append-config=" ++ rcfile ++ " "
        ++ PyStr.join " " paths in
      r <- call_py_cmd command ("Running flake8 on " ++ desc ++ "...") None ;;
      ret (Some r)
  end.

Definition _run_pep8 (modules : path_table) : M CommandResultItem :=
  let cli_paths := (values (pt_core modules) ++ values (pt_mod modules))%list in
  let ext_paths := values (pt_ext modules) in
  rc <- _config_file_path "flake8" ;;
  let '(cli_config, ext_config) := rc in
  cli_result <- pep8_run cli_paths cli_config "modules" ;;
  ext_result <- pep8_run ext_paths ext_config "extensions" ;;
  _combine_command_result cli_result ext_result.

(** [modules == [name]] *)
Definition is_only (name : string) (modules : option (list string)) : bool :=
  match modules with
  | Some [m] => String.eqb m name
  | _ => false
  end.

Definition call_get_path_table (include_only : option (list string))
    : M path_table :=
  emit (EvGetPathTable include_only) ;;
  ret (get_path_table W include_only).

(** [require_azure_cli()] raises a [CLIError] when the Azure CLI is not
    installed. *)
Definition call_require_azure_cli : M unit :=
  emit EvRequireAzureCli ;;
  match require_azure_cli W with
  | None => ret tt
  | Some msg => raise (CLIError msg)
  end.

Definition call_filter_by_git_diff (t : path_table)
    (git_source git_target git_repo : option string) : M path_table :=
  emit (EvFilterByGitDiff t git_source git_target git_repo) ;;
  ret (filter_by_git_diff W t git_source git_target git_repo).

Definition sys_exit (code : Z) : M unit := raise (SystemExit code).

Definition nonempty {A} (l : list A) : bool :=
  match l with
  | [] => false
  | _ => true
  end.

(** [any((selected_modules[x] for x in selected_modules))] *)
Definition any_selected (t : path_table) : bool :=
  existsb (fun d : partition => nonempty d) [pt_core t; pt_mod t; pt_ext t].

(** The two [pop] calls on [selected_modules['core']]. *)
Definition remove_non_modules (t : path_table) : path_table :=
  {| pt_core := pop "azure-cli-command_modules-nspkg"
                    (pop "azure-cli-nspkg" (pt_core t));
     pt_mod := pt_mod t; pt_ext := pt_ext t |}.

(** [selected_modules['ext'] = {}] *)
Definition clear_ext (t : path_table) : path_table :=
  {| pt_core := pt_core t; pt_mod := pt_mod t; pt_ext := [] |}.

(** [selected_modules['mod'] = {}] and [selected_modules['core'] = {}] *)
Definition clear_cli (t : path_table) : path_table :=
  {| pt_core := []; pt_mod := []; pt_ext := pt_ext t |}.

Definition check_style (modules : option (list string)) (pylint pep8 : bool)
    (git_source git_target git_repo : option string) : M unit :=
  heading "Style Check" ;;
  let cli_only := is_only "CLI" modules in
  let ext_only := is_only "EXT" modules in
  let modules := if (cli_only || ext_only)%bool then None else modules in
  selected_modules <- call_get_path_table modules ;;
  let selected_modules := remove_non_modules selected_modules in
  when pylint
    (try_except call_require_azure_cli
       (fun e => match e with
                 | CLIError _ =>
                     Some (raise (CLIError
                       "usage error: --pylint requires Azure CLI to be installed."))
                 | _ => None
                 end)) ;;
  let selected_modules :=
    if cli_only then clear_ext selected_modules else selected_modules in
  let selected_modules :=
    if ext_only then clear_cli selected_modules else selected_modules in
  selected_modules <-
    call_filter_by_git_diff selected_modules git_source git_target git_repo ;;
  if negb (any_selected selected_modules) then
    raise (CLIError "No modules selected.")
  else
    let mod_names :=
      (keys (pt_mod selected_modules) ++ keys (pt_core selected_modules))%list in
    let ext_names := keys (pt_ext selected_modules) in
    when (nonempty mod_names)
      (display ("Modules: " ++ PyStr.join ", " mod_names ++ LF)) ;;
    when (nonempty ext_names)
      (display ("Extensions: " ++ PyStr.join ", " ext_names ++ LF)) ;;
    let neither := negb (pylint || pep8)%bool in
    let pep8 := if neither then true else pep8 in
    let pylint := if neither then true else pylint in
    let exit_code_sum := 0 in
    exit_code_sum <-
      (if pylint then
         pylint_result <- run_pylint selected_modules None None false None ;;
         let exit_code_sum := exit_code_sum + exit_code pylint_result in
         match error pylint_result with
         | Some l =>
             display "Pylint: PASSED" ;;
             out <- getattr_output l ;;
             logger_error out ;;
             logger_error ("Pylint: FAILED" ++ LF) ;;
             ret exit_code_sum
         | None =>
             display ("Pylint: PASSED" ++ LF) ;;
             ret exit_code_sum
         end
       else ret exit_code_sum) ;;
    exit_code_sum <-
      (if pep8 then
         pep8_result <- _run_pep8 selected_modules ;;
         let exit_code_sum := exit_code_sum + exit_code pep8_result in
         match error pep8_result with
         | Some l =>
             out <- getattr_output l ;;
             logger_error out ;;
             logger_error ("Flake8: FAILED" ++ LF) ;;
             ret exit_code_sum
         | None =>
             display ("Flake8: PASSED" ++ LF) ;;
             ret exit_code_sum
         end
       else ret exit_code_sum) ;;
    sys_exit exit_code_sum.

End Style.

Arguments run_pylint : simpl never.
Arguments _run_pep8 : simpl never.
Arguments _config_file_path : simpl never.

(** ** Running a computation *)

Definition outcome {A} (r : (exception + A) * state) : exception + A := fst r.
Definition final_state {A} (r : (exception + A) * state) : state := snd r.

(** The events a run added to the trace it started from. *)
Definition extends (s s' : state) (t : list event) : Prop :=
  st_trace s' = (st_trace s ++ t)%list.

Definition no_subprocess (t : list event) : Prop :=
  forallb (fun e => negb (is_subprocess e)) t = true.

(** The text an error contributes when it is appended to a message: its
    [message] attribute, or its string conversion when it has none. *)
Definition error_text (h : heap) (l : loc) : string :=
  match exn_message (h l) with
  | Some m => m
  | None => exn_str (h l)
  end.

(** The table [check_style] hands to the git-diff filter. *)
Definition table_before_filter (W : world) (modules : option (list string))
    : path_table :=
  let cli_only := is_only "CLI" modules in
  let ext_only := is_only "EXT" modules in
  let t := remove_non_modules
             (get_path_table W (if (cli_only || ext_only)%bool then None else modules)) in
  let t := if cli_only then clear_ext t else t in
  if ext_only then clear_cli t else t.

(** What a result contributes as result text: nothing when it is absent or
    empty. *)
Definition kept_text (r : option string) : option string :=
  if result_truthy r then r else None.

Definition mark (s : state) (l : option loc) : state :=
  match l with
  | Some l => {| st_heap := upd (st_heap s) l (with_message (st_heap s l) EmptyString);
                 st_next := st_next s; st_trace := st_trace s |}
  | None => s
  end.

(** Result text after a further application. *)
Definition merged_text (acc item : option string) : option string :=
  if result_truthy item then
    if result_truthy acc then Some (text_of acc ++ text_of item) else item
  else acc.

(** [emits P m]: whatever the start, [m] only appends events, and each of
    them satisfies [P]. *)
Definition emits (P : event -> Prop) {A} (m : M A) : Prop :=
  forall s, exists t, extends s (final_state (m s)) t /\ Forall P t.

(** Events of the tool runners: debug logging and subprocesses. *)
Definition tool_event (e : event) : Prop :=
  match e with
  | EvLogDebug _ | EvPyCmd _ _ _ => True
  | _ => False
  end.

(** Events of the reporting phase, after the selection is settled. *)
Definition report_event (e : event) : Prop :=
  match e with
  | EvDisplay _ | EvLogError _ | EvLogDebug _ | EvPyCmd _ _ _ => True
  | _ => False
  end.

(** The [include_only] argument of the discovery call. *)
Definition include_only_of (modules : option (list string)) : option (list string) :=
  if (is_only "CLI" modules || is_only "EXT" modules)%bool then None else modules.

(** The tables the git-diff filter was applied to, in order. *)
Fixpoint filter_calls (t : list event) : list path_table :=
  match t with
  | [] => []
  | EvFilterByGitDiff tbl _ _ _ :: t' => tbl :: filter_calls t'
  | _ :: t' => filter_calls t'
  end.

Definition ext_pattern (W : world) (path : string) : string :=
  OsPath.join path (OsPath.normcase (EXTENSION_PREFIX W ++ "*")).

(** What a run displayed, what it logged as errors and which commands it
    ran, in order. *)
Fixpoint displayed (t : list event) : list string :=
  match t with
  | [] => []
  | EvDisplay m :: t' => m :: displayed t'
  | _ :: t' => displayed t'
  end.

Fixpoint logged_errors (t : list event) : list string :=
  match t with
  | [] => []
  | EvLogError m :: t' => m :: logged_errors t'
  | _ :: t' => logged_errors t'
  end.

Fixpoint commands (t : list event) : list string :=
  match t with
  | [] => []
  | EvPyCmd c _ _ :: t' => c :: commands t'
  | _ :: t' => commands t'
  end.

Fixpoint preflight_checks (t : list event) : nat :=
  match t with
  | [] => 0%nat
  | EvRequireAzureCli :: t' => S (preflight_checks t')
  | _ :: t' => preflight_checks t'
  end.

(** ** Sample worlds *)
Module Samples.

Definition table : path_table :=
  {| pt_core := [("azure-cli-core", "/repo/src/azure-cli-core");
                 ("azure-cli-nspkg", "/repo/src/azure-cli-nspkg")];
     pt_mod := [("vm", "/repo/src/command_modules/azure-cli-vm")];
     pt_ext := [("myext", "/ext/src/myext")] |}.

Definition empty_table : path_table :=
  {| pt_core := []; pt_mod := []; pt_ext := [] |}.

Definition lint_error : exn_obj :=
  {| exn_str := "Command 'pylint' returned non-zero exit status 2.";
     exn_output := "E0001: syntax-error";
     exn_message := None |}.

Definition passed : cmd_outcome :=
  {| co_result := Some ""; co_exit_code := 0; co_error := None |}.

Definition lint_failed : cmd_outcome :=
  {| co_result := Some "E0001: syntax-error"; co_exit_code := 2;
     co_error := Some lint_error |}.

(** Everything is installed and every tool passes. *)
Definition clean : world :=
  {| get_path_table := fun _ => table;
     require_azure_cli := None;
     filter_by_git_diff := fun t _ _ _ => t;
     py_cmd := fun _ _ _ _ => passed;
     glob := fun p => [p];
     cpu_count := 4;
     EXTENSION_PREFIX := "azext_";
     config_get := fun _ _ => "";
     get_azdev_config_dir := "/home/dev/.azdev" |}.

(** Repository paths are configured. *)
Definition configured : world :=
  {| get_path_table := fun _ => table;
     require_azure_cli := None;
     filter_by_git_diff := fun t _ _ _ => t;
     py_cmd := fun _ _ _ _ => passed;
     glob := fun p => [p];
     cpu_count := 4;
     EXTENSION_PREFIX := "azext_";
     config_get := fun section _ =>
       if String.eqb section "cli" then "/repo"
       else "/work/other /work/azure-cli-extensions";
     get_azdev_config_dir := "/home/dev/.azdev" |}.

(** One core module is selected and pylint fails on it. *)
Definition lint_fails : world :=
  {| get_path_table := fun _ =>
       {| pt_core := [("azure-cli-core", "/repo/src/azure-cli-core")];
          pt_mod := []; pt_ext := [] |};
     require_azure_cli := None;
     filter_by_git_diff := fun t _ _ _ => t;
     py_cmd := fun _ command _ _ =>
       if String.prefix "pylint" command then lint_failed else passed;
     glob := fun p => [p];
     cpu_count := 4;
     EXTENSION_PREFIX := "azext_";
     config_get := fun _ _ => "";
     get_azdev_config_dir := "/home/dev/.azdev" |}.

(** The Azure CLI is not installed. *)
Definition no_azure_cli : world :=
  {| get_path_table := fun _ =>
       {| pt_core := [("azure-cli-core", "/repo/src/azure-cli-core")];
          pt_mod := []; pt_ext := [] |};
     require_azure_cli := Some "Azure CLI is not installed.";
     filter_by_git_diff := fun t _ _ _ => t;
     py_cmd := fun _ _ _ _ => passed;
     glob := fun p => [p];
     cpu_count := 4;
     EXTENSION_PREFIX := "azext_";
     config_get := fun _ _ => "";
     get_azdev_config_dir := "/home/dev/.azdev" |}.

(** The git-diff filter keeps nothing. *)
Definition nothing_changed : world :=
  {| get_path_table := fun _ => table;
     require_azure_cli := None;
     filter_by_git_diff := fun _ _ _ _ => empty_table;
     py_cmd := fun _ _ _ _ => passed;
     glob := fun p => [p];
     cpu_count := 4;
     EXTENSION_PREFIX := "azext_";
     config_get := fun _ _ => "";
     get_azdev_config_dir := "/home/dev/.azdev" |}.

(** The extension directory holds nothing that matches the prefix. *)
Definition no_glob_match : world :=
  {| get_path_table := fun _ => table;
     require_azure_cli := None;
     filter_by_git_diff := fun t _ _ _ => t;
     py_cmd := fun _ _ _ _ => passed;
     glob := fun _ => [];
     cpu_count := 4;
     EXTENSION_PREFIX := "azext_";
     config_get := fun _ _ => "";
     get_azdev_config_dir := "/home/dev/.azdev" |}.

Definition no_error : exn_obj :=
  {| exn_str := ""; exn_output := ""; exn_message := None |}.

(** An empty heap: nothing allocated, no event yet. *)
Definition start : state :=
  {| st_heap := fun _ => no_error; st_next := 0%nat; st_trace := [] |}.

(** Two distinct error objects, each with a [message]. *)
Definition two_errors : state :=
  {| st_heap := fun l =>
       if Nat.eqb l 0 then
         {| exn_str := "first failed"; exn_output := "out one";
            exn_message := Some "first" |}
       else
         {| exn_str := "second failed"; exn_output := "out two";
            exn_message := Some "second" |};
     st_next := 2%nat; st_trace := [] |}.

Definition first_failed : CommandResultItem :=
  {| result := None; exit_code := 1; error := Some 0%nat |}.

Definition second_failed : CommandResultItem :=
  {| result := None; exit_code := 1; error := Some 1%nat |}.

Definition silent_success : CommandResultItem :=
  {| result := Some ""; exit_code := 0; error := None |}.

End Samples.

(** ** Specifications of runs *)

(** [behaves m R]: from any state, [m] only appends events, and [R] relates
    the trace before the run, the events added and the outcome. *)
Definition behaves {A} (m : M A)
    (R : list event -> list event -> exception + A -> Prop) : Prop :=
  forall s, exists t,
    extends s (final_state (m s)) t /\ R (st_trace s) t (outcome (m s)).

(** The common case: every added event satisfies [P], a returned value
    satisfies [Q] and a raised exception satisfies [E]. *)
Definition satisfies {A} (P : event -> Prop) (Q : A -> Prop)
    (E : exception -> Prop) (m : M A) : Prop :=
  behaves m (fun _ t o =>
    Forall P t /\ match o with inr a => Q a | inl e => E e end).

(** The result both arguments of [_combine_command_result] being present
    leads to, read off [apply_result]. *)
Definition combined (a b : CommandResultItem) : CommandResultItem :=
  {| result :=
       match result_truthy (result a), result_truthy (result b) with
       | true, true => Some (text_of (result a) ++ text_of (result b))
       | true, false => result a
       | false, true => result b
       | false, false => None
       end;
     exit_code := exit_code a + exit_code b;
     error := match error a with
              | Some l => Some l
              | None => error b
              end |}.

(** The sum of the exit codes the subprocess runner answers along the
    events [t] added after the history [h]. *)
Fixpoint exit_sum (W : world) (h t : list event) : Z :=
  match t with
  | [] => 0
  | e :: t' =>
      match e with
      | EvPyCmd command message env =>
          co_exit_code (py_cmd W h command message env)
      | _ => 0
      end + exit_sum W (h ++ [e]) t'
  end.

(** The one flake8 command of a path group, none for an empty group. *)
Definition flake8_commands (rcfile : string) (paths : list string) : list string :=
  match paths with
  | [] => []
  | _ => ["flake8 --statistics --append-config=" ++ rcfile ++ " "
          ++ PyStr.join " " paths]
  end.

(** The ways [check_style] can end. *)
Definition check_style_exit (e : exception) : Prop :=
  e = CLIError "usage error: --pylint requires Azure CLI to be installed."
  \/ e = CLIError "No modules selected."
  \/ e = IndexError "list index out of range"
  \/ exists code, e = SystemExit code.

Definition not_error_log (e : event) : Prop :=
  match e with
  | EvLogError _ => False
  | _ => True
  end.

(** What a run with only the style flag may do: no pre-flight check, and
    no command other than flake8. *)
Definition flake8_only_event (e : event) : Prop :=
  match e with
  | EvRequireAzureCli => False
  | EvPyCmd command _ _ => String.prefix "flake8 " command = true
  | _ => True
  end.

(** What a run with only the lint flag may do: no command other than
    pylint. *)
Definition pylint_only_event (e : event) : Prop :=
  match e with
  | EvPyCmd command _ _ => String.prefix "pylint " command = true
  | _ => True
  end.

(** The discovery calls of a trace, with their [include_only] argument. *)
Fixpoint discovery_calls (t : list event) : list (option (list string)) :=
  match t with
  | [] => []
  | EvGetPathTable include_only :: t' => include_only :: discovery_calls t'
  | _ :: t' => discovery_calls t'
  end.

(** [a] is the beginning of [b]. *)
Definition starts_with (b a : string) : Prop := exists rest, b = a ++ rest.

(** Exit code and error of an optional result; an absent result counts
    for exit code 0 and no error. *)
Definition opt_exit_code (o : option CommandResultItem) : Z :=
  match o with
  | Some r => exit_code r
  | None => 0
  end.

Definition opt_error (o : option CommandResultItem) : option loc :=
  match o with
  | Some r => error r
  | None => None
  end.

(** No command the subprocess runner is asked for fails with an error. *)
Definition no_command_fails (W : world) : Prop :=
  forall h command message env, co_error (py_cmd W h command message env) = None.

(** ** The phases of [check_style]

    The body of [check_style] cut into its consecutive parts, so that each
    can be specified on its own; [check_style_phases] below shows that
    their sequence is [check_style] itself. *)

(** Lines 36-38 and 49-55: what is done to the discovered table. *)
Definition prepare (modules : option (list string)) (discovered : path_table)
    : path_table :=
  let t := remove_non_modules discovered in
  let t := if is_only "CLI" modules then clear_ext t else t in
  if is_only "EXT" modules then clear_cli t else t.

(** Lines 43-47. *)
Definition preflight (W : world) (pylint : bool) : M unit :=
  when pylint
    (try_except (call_require_azure_cli W)
       (fun e => match e with
                 | CLIError _ =>
                     Some (raise (CLIError
                       "usage error: --pylint requires Azure CLI to be installed."))
                 | _ => None
                 end)).

(** Lines 79-87. *)
Definition pylint_step (W : world) (selected_modules : path_table)
    (exit_code_sum : Z) : M Z :=
  pylint_result <- run_pylint W selected_modules None None false None ;;
  let exit_code_sum := exit_code_sum + exit_code pylint_result in
  match error pylint_result with
  | Some l =>
      display "Pylint: PASSED" ;;
      out <- getattr_output l ;;
      logger_error out ;;
      logger_error ("Pylint: FAILED" ++ LF) ;;
      ret exit_code_sum
  | None =>
      display ("Pylint: PASSED" ++ LF) ;;
      ret exit_code_sum
  end.

(** Lines 90-97. *)
Definition pep8_step (W : world) (selected_modules : path_table)
    (exit_code_sum : Z) : M Z :=
  pep8_result <- _run_pep8 W selected_modules ;;
  let exit_code_sum := exit_code_sum + exit_code pep8_result in
  match error pep8_result with
  | Some l =>
      out <- getattr_output l ;;
      logger_error out ;;
      logger_error ("Flake8: FAILED" ++ LF) ;;
      ret exit_code_sum
  | None =>
      display ("Flake8: PASSED" ++ LF) ;;
      ret exit_code_sum
  end.

(** Lines 76-99, with the flags as they are after the defaulting. *)
Definition run_tools (W : world) (selected_modules : path_table)
    (pylint pep8 : bool) : M unit :=
  exit_code_sum <- (if pylint then pylint_step W selected_modules 0 else ret 0) ;;
  exit_code_sum <-
    (if pep8 then pep8_step W selected_modules exit_code_sum
     else ret exit_code_sum) ;;
  sys_exit exit_code_sum.

(** Lines 60-99: everything after the filter. *)
Definition report_phase (W : world) (selected_modules : path_table)
    (pylint pep8 : bool) : M unit :=
  if negb (any_selected selected_modules) then
    raise (CLIError "No modules selected.")
  else
    let mod_names :=
      (keys (pt_mod selected_modules) ++ keys (pt_core selected_modules))%list in
    let ext_names := keys (pt_ext selected_modules) in
    when (nonempty mod_names)
      (display ("Modules: " ++ PyStr.join ", " mod_names ++ LF)) ;;
    when (nonempty ext_names)
      (display ("Extensions: " ++ PyStr.join ", " ext_names ++ LF)) ;;
    let neither := negb (pylint || pep8)%bool in
    run_tools W selected_modules
      (if neither then true else pylint) (if neither then true else pep8).

Definition is_display (e : event) : Prop :=
  match e with
  | EvDisplay _ => True
  | _ => False
  end.

(** The options [run_pylint] appends to a command, in this order. *)
Definition pylint_options (checkers : option (list string)) (disable_all : bool)
    (enable : option (list string)) : string :=
  match checkers with
  | Some cs => " --load-plugins " ++ PyStr.join "," cs
  | None => EmptyString
  end
  ++ (if disable_all then " --disable=all" else EmptyString)
  ++ match enable with
     | Some es => " --enable " ++ PyStr.join "," es
     | None => EmptyString
     end.

(** The one pylint command of a path group, none for an empty group. *)
Definition pylint_commands (W : world) (rcfile : string)
    (checkers : option (list string)) (disable_all : bool)
    (enable : option (list string)) (paths : list string) : list string :=
  match paths with
  | [] => []
  | _ => ["pylint " ++ PyStr.join " " paths ++ " --rcfile=" ++ rcfile
          ++ " --jobs " ++ PyStr.of_nat (cpu_count W)
          ++ pylint_options checkers disable_all enable]
  end.

(** The first glob match under an extension path. *)
Definition first_match (W : world) (path : string) : string :=
  hd EmptyString (glob W (ext_pattern W path)).

(** Whether a string holds the path separator. *)
Fixpoint has_sep (s : string) : bool :=
  match s with
  | EmptyString => false
  | String a r => (Ascii.eqb a OsPath.sep || has_sep r)%bool
  end.

(** ** The monad's equations *)

Lemma bind_inr {A B} (m : M A) (k : A -> M B) s a s' :
  m s = (inr a, s') -> bind m k s = k a s'.
Proof. intros H. unfold bind. rewrite H. reflexivity. Qed.

Lemma bind_inl {A B} (m : M A) (k : A -> M B) s e s' :
  m s = (inl e, s') -> bind m k s = (inl e, s').
Proof. intros H. unfold bind. rewrite H. reflexivity. Qed.

Lemma upd_same h l e : upd h l e l = e.
Proof. unfold upd. rewrite Nat.eqb_refl. reflexivity. Qed.

Lemma upd_other h l e l' : l' <> l -> upd h l e l' = h l'.
Proof.
  intros H. unfold upd. destruct (Nat.eqb_spec l' l); [contradiction | reflexivity].
Qed.

(** ** [_combine_command_result] *)

(** The first application of [apply_result], on the fresh result. *)
Lemma apply_result_fresh item s :
  apply_result (Some item) CommandResultItem_None s =
  (inr {| result := kept_text (result item);
          exit_code := exit_code item;
          error := error item |},
   mark s (error item)).
Proof.
  destruct item as [r c e]. unfold apply_result, kept_text, mark. cbn.
  destruct e as [l|]; destruct (result_truthy r); reflexivity.
Qed.

Lemma apply_result_absent fin s : apply_result None fin s = (inr fin, s).
Proof. reflexivity. Qed.

(** A further application when no error has been adopted yet. *)
Lemma apply_result_adopt item fin s :
  error fin = None ->
  apply_result (Some item) fin s =
  (inr {| result := merged_text (result fin) (result item);
          exit_code := exit_code fin + exit_code item;
          error := error item |},
   mark s (error item)).
Proof.
  intros Hf. destruct item as [r c e], fin as [fr fc fe]. cbn in Hf. subst fe.
  unfold apply_result, merged_text, mark. cbn.
  destruct e as [l|]; unfold bind, setattr_message, ret; cbn;
    destruct (result_truthy r); destruct (result_truthy fr); reflexivity.
Qed.

(** A further application when an error was adopted before and the item
    has none. *)
Lemma apply_result_keep item fin s :
  error item = None ->
  apply_result (Some item) fin s =
  (inr {| result := merged_text (result fin) (result item);
          exit_code := exit_code fin + exit_code item;
          error := error fin |},
   s).
Proof.
  intros Hi. destruct item as [r c e], fin as [fr fc fe]. cbn in Hi. subst e.
  unfold apply_result, merged_text. cbn.
  unfold bind, ret; cbn.
  destruct (result_truthy r); destruct (result_truthy fr); reflexivity.
Qed.

(** A further application when both carry an error: the item's text is
    appended to the message of the adopted error. *)
Lemma apply_result_append item fin s lf li m :
  error fin = Some lf ->
  error item = Some li ->
  exn_message (st_heap s lf) = Some m ->
  apply_result (Some item) fin s =
  (inr {| result := merged_text (result fin) (result item);
          exit_code := exit_code fin + exit_code item;
          error := Some lf |},
   {| st_heap := upd (st_heap s) lf
                   (with_message (st_heap s lf) (m ++ error_text (st_heap s) li));
      st_next := st_next s; st_trace := st_trace s |}).
Proof.
  intros Hf Hi Hm. destruct item as [r c e], fin as [fr fc fe].
  cbn in Hf, Hi. subst e fe.
  unfold apply_result, merged_text, error_text. cbn.
  unfold bind, try_except, getattr_message, setattr_message, str_of, ret.
  rewrite Hm.
  destruct (exn_message (st_heap s li)) as [mi|] eqn:Hmi; cbn.
  - destruct (result_truthy r); destruct (result_truthy fr); reflexivity.
  - rewrite Hm. cbn.
    destruct (result_truthy r); destruct (result_truthy fr); reflexivity.
Qed.

Lemma mark_trace s l : st_trace (mark s l) = st_trace s.
Proof. destruct l; reflexivity. Qed.

Lemma mark_next s l : st_next (mark s l) = st_next s.
Proof. destruct l; reflexivity. Qed.

Lemma mark_message s l : exn_message (st_heap (mark s (Some l)) l) = Some EmptyString.
Proof. cbn. rewrite upd_same. reflexivity. Qed.

(** The combination never raises: the only attribute read that could fail
    is on an error whose [message] has just been set.  It adds no event
    and allocates nothing. *)
Lemma combine_total a b s :
  exists r s',
    _combine_command_result a b s = (inr r, s')
    /\ st_trace s' = st_trace s /\ st_next s' = st_next s
    /\ exit_code r =
       match a with Some x => exit_code x | None => 0 end
       + match b with Some x => exit_code x | None => 0 end.
Proof.
  unfold _combine_command_result.
  destruct a as [a|].
  - rewrite (bind_inr _ _ _ _ _ (apply_result_fresh a s)).
    destruct b as [b|].
    + destruct (error a) as [la|] eqn:Ha.
      * destruct (error b) as [lb|] eqn:Hb.
        -- erewrite apply_result_append; [| reflexivity | exact Hb | apply mark_message].
           do 2 eexists. cbn. repeat split; reflexivity.
        -- rewrite apply_result_keep by exact Hb.
           do 2 eexists. cbn. repeat split; reflexivity.
      * rewrite apply_result_adopt by reflexivity.
        do 2 eexists. repeat split; cbn; rewrite ?mark_trace, ?mark_next; reflexivity.
    + rewrite apply_result_absent. do 2 eexists.
      repeat split; cbn; rewrite ?mark_trace, ?mark_next; try reflexivity. lia.
  - rewrite (bind_inr _ _ _ _ _ (apply_result_absent _ s)).
    destruct b as [b|].
    + rewrite apply_result_fresh. do 2 eexists.
      repeat split; cbn; rewrite ?mark_trace, ?mark_next; reflexivity.
    + rewrite apply_result_absent. do 2 eexists. repeat split; reflexivity.
Qed.

(** C5: combining two command results gives a result whose exit code is
    the sum of the two exit codes; in particular the results
    [{0, None, None}] and [{1, None, None}] combine to exit code 1. *)
Theorem combine_sums_exit_codes :
  (forall a b s, exists r s',
      _combine_command_result (Some a) (Some b) s = (inr r, s')
      /\ exit_code r = exit_code a + exit_code b)
  /\ (forall s,
      _combine_command_result
        (Some {| result := None; exit_code := 0; error := None |})
        (Some {| result := None; exit_code := 1; error := None |}) s
      = (inr {| result := None; exit_code := 1; error := None |}, s)).
Proof.
  split.
  - intros a b s.
    destruct (combine_total (Some a) (Some b) s) as (r & s' & E & _ & _ & Hc).
    exists r, s'. split; assumption.
  - intros s. reflexivity.
Qed.

(** C2: when both results carry an error (two distinct objects), the
    combined result carries the first error object, and its message is the
    text of the second error alone (its [message], or its string conversion
    when it has none): the text of the first error is not part of it. *)
Theorem combine_drops_first_error_text a b la lb s :
  error a = Some la -> error b = Some lb -> la <> lb ->
  exists r s',
    _combine_command_result (Some a) (Some b) s = (inr r, s')
    /\ error r = Some la
    /\ exn_message (st_heap s' la) = Some (error_text (st_heap s) lb).
Proof.
  intros Ha Hb Hne. unfold _combine_command_result.
  rewrite (bind_inr _ _ _ _ _ (apply_result_fresh a s)).
  rewrite Ha.
  erewrite apply_result_append; [| reflexivity | exact Hb | apply mark_message].
  do 2 eexists. split; [reflexivity |]. split; [reflexivity |].
  cbn. rewrite upd_same. cbn. unfold error_text.
  rewrite upd_other by (intros E; apply Hne; symmetry; exact E).
  reflexivity.
Qed.

Lemma combine_drops_first_error_text_witness :
  exists r s',
    _combine_command_result (Some Samples.first_failed)
      (Some Samples.second_failed) Samples.two_errors = (inr r, s')
    /\ error r = Some 0%nat
    /\ exn_message (st_heap s' 0%nat) = Some "second".
Proof.
  apply (combine_drops_first_error_text Samples.first_failed
           Samples.second_failed 0%nat 1%nat Samples.two_errors);
    [reflexivity | reflexivity | discriminate].
Defined.

(** C9, as stated, fails: combining a missing result with a successful
    result whose text is the empty string gives a result with no text at
    all. *)
Lemma absent_result_is_not_identity :
  ~ (forall r s, exists r' s',
        _combine_command_result None (Some r) s = (inr r', s')
        /\ exit_code r' = exit_code r
        /\ error r' = error r
        /\ result r' = result r).
Proof.
  intros H.
  destruct (H Samples.silent_success Samples.start) as (r' & s' & E & _ & _ & Hr).
  cbn in E. injection E as E _. subst r'. discriminate Hr.
Qed.

(** C9, amended: a path group with no paths starts no tool in either
    runner and its result is absent; combining an absent result with a
    result [r], in either order, gives [r]'s exit code, [r]'s own error
    object and [r]'s result text when that text is not empty (no result
    text otherwise); no event is added, and the string conversion and the
    captured output of every error object are as before. *)
Theorem absent_result_contributes_nothing W :
  (forall rcfile desc checkers env disable_all enable s,
      pylint_run W [] rcfile desc checkers env disable_all enable s = (inr None, s))
  /\ (forall rcfile desc s, pep8_run W [] rcfile desc s = (inr None, s))
  /\ (forall r s, exists s',
        let r' := {| result := if result_truthy (result r) then result r else None;
                     exit_code := exit_code r;
                     error := error r |} in
        _combine_command_result None (Some r) s = (inr r', s')
        /\ _combine_command_result (Some r) None s = (inr r', s')
        /\ st_trace s' = st_trace s
        /\ forall l, exn_str (st_heap s' l) = exn_str (st_heap s l)
                     /\ exn_output (st_heap s' l) = exn_output (st_heap s l)).
Proof.
  split; [reflexivity |]. split; [reflexivity |].
  intros r s. exists (mark s (error r)). cbn zeta.
  unfold _combine_command_result.
  rewrite (bind_inr _ _ _ _ _ (apply_result_absent _ s)).
  rewrite (bind_inr _ _ _ _ _ (apply_result_fresh r s)).
  rewrite apply_result_fresh, apply_result_absent.
  split; [reflexivity |]. split; [reflexivity |].
  split; [apply mark_trace |].
  intros l. destruct (error r) as [le|]; cbn; [| split; reflexivity].
  unfold upd. destruct (Nat.eqb_spec l le); [subst; split; reflexivity | split; reflexivity].
Qed.

(** ** [_config_file_path] *)

(** C7: for the tools ["pylint"] and ["flake8"], [_config_file_path] returns
    for each path group the configured repository path joined with the
    tool's config-file name ([pylintrc], [.flake8]) when a repository path
    is configured, and the bundled default under [config_files] in the
    configuration directory otherwise; for any other identifier it raises a
    [ValueError]. *)
Theorem config_file_path_resolution W s :
  (forall style_type name cli_default ext_default,
      (style_type, name, cli_default, ext_default)
        = ("pylint", "pylintrc", "cli_pylintrc", "ext_pylintrc")
      \/ (style_type, name, cli_default, ext_default)
        = ("flake8", ".flake8", "cli.flake8", "ext.flake8") ->
      let bundled := OsPath.join (get_azdev_config_dir W) "config_files" in
      exists cli ext,
        _config_file_path W style_type s = (inr (cli, ext), s)
        /\ cli = (match config_get W "cli" "repo_path" with
                  | EmptyString => OsPath.join bundled cli_default
                  | repo => OsPath.join repo name
                  end)
        /\ ext = (match ext_repo_path W with
                  | Some repo => OsPath.join repo name
                  | None => OsPath.join bundled ext_default
                  end))
  /\ (forall style_type,
      style_type <> "pylint" -> style_type <> "flake8" ->
      exists msg, _config_file_path W style_type s = (inl (ValueError msg), s)).
Proof.
  split.
  - intros style_type name cli_default ext_default [E | E];
      injection E as -> -> -> ->; cbn zeta;
      unfold _config_file_path; cbn;
      destruct (config_get W "cli" "repo_path"); destruct (ext_repo_path W);
      do 2 eexists; (split; [reflexivity | split; reflexivity]).
  - intros style_type Hp Hf. unfold _config_file_path. cbn.
    apply String.eqb_neq in Hp, Hf. rewrite Hp, Hf. cbn.
    eexists. reflexivity.
Qed.

Lemma config_file_path_resolution_witness :
  _config_file_path Samples.configured "pylint" Samples.start
    = (inr ("/repo/pylintrc", "/work/azure-cli-extensions/pylintrc"), Samples.start)
  /\ _config_file_path Samples.clean "flake8" Samples.start
    = (inr ("/home/dev/.azdev/config_files/cli.flake8",
            "/home/dev/.azdev/config_files/ext.flake8"), Samples.start)
  /\ exists msg,
      _config_file_path Samples.configured "black" Samples.start
        = (inl (ValueError msg), Samples.start).
Proof.
  split; [| split].
  - destruct (config_file_path_resolution Samples.configured Samples.start) as [H _].
    destruct (H "pylint" "pylintrc" "cli_pylintrc" "ext_pylintrc"
                (or_introl eq_refl)) as (cli & ext & E & Hc & He).
    rewrite E, Hc, He. reflexivity.
  - destruct (config_file_path_resolution Samples.clean Samples.start) as [H _].
    destruct (H "flake8" ".flake8" "cli.flake8" "ext.flake8"
                (or_intror eq_refl)) as (cli & ext & E & Hc & He).
    rewrite E, Hc, He. reflexivity.
  - destruct (config_file_path_resolution Samples.configured Samples.start) as [_ H].
    apply H; discriminate.
Defined.

(** ** Which events a computation can add *)

Section Emits.

Context (P : event -> Prop).

Lemma emits_silent {A} (m : M A) :
  (forall s, st_trace (final_state (m s)) = st_trace s) -> emits P m.
Proof.
  intros H s. exists []. split; [| constructor].
  unfold extends. rewrite H, app_nil_r. reflexivity.
Qed.

Lemma emits_ret {A} (a : A) : emits P (ret a).
Proof. apply emits_silent. reflexivity. Qed.

Lemma emits_raise {A} e : emits P (@raise A e).
Proof. apply emits_silent. reflexivity. Qed.

Lemma emits_emit e : P e -> emits P (emit e).
Proof.
  intros H s. exists [e]. split; [reflexivity | repeat constructor; exact H].
Qed.

Lemma emits_bind {A B} (m : M A) (k : A -> M B) :
  emits P m -> (forall a, emits P (k a)) -> emits P (bind m k).
Proof.
  intros Hm Hk s. destruct (Hm s) as (t1 & E1 & F1).
  unfold bind, final_state in *. destruct (m s) as [[e | a] s1]; cbn in E1.
  - exists t1. split; assumption.
  - destruct (Hk a s1) as (t2 & E2 & F2). exists (t1 ++ t2)%list. split.
    + unfold extends, final_state in *. rewrite E2, E1, app_assoc. reflexivity.
    + apply Forall_app. split; assumption.
Qed.

Lemma emits_try_except {A} (m : M A) h :
  emits P m -> (forall e k, h e = Some k -> emits P k) ->
  emits P (try_except m h).
Proof.
  intros Hm Hh s. destruct (Hm s) as (t1 & E1 & F1).
  unfold try_except, final_state in *. destruct (m s) as [[e | a] s1]; cbn in E1.
  - destruct (h e) as [k |] eqn:Hk.
    + destruct (Hh e k Hk s1) as (t2 & E2 & F2). exists (t1 ++ t2)%list. split.
      * unfold extends, final_state in *. rewrite E2, E1, app_assoc. reflexivity.
      * apply Forall_app. split; assumption.
    + exists t1. split; assumption.
  - exists t1. split; assumption.
Qed.

Lemma emits_when b m : emits P m -> emits P (when b m).
Proof. intros H. destruct b; [exact H | apply emits_ret]. Qed.

Lemma emits_getattr_output l : emits P (getattr_output l).
Proof. apply emits_silent. reflexivity. Qed.

Lemma emits_alloc e : emits P (alloc e).
Proof. apply emits_silent. reflexivity. Qed.

Lemma emits_combine a b : emits P (_combine_command_result a b).
Proof.
  apply emits_silent. intros s.
  destruct (combine_total a b s) as (r & s' & E & Ht & _). rewrite E. exact Ht.
Qed.

Lemma emits_dict_get d k : emits P (dict_get d k).
Proof.
  induction d as [| [k' v] d IH]; cbn.
  - apply emits_raise.
  - destruct (String.eqb k' k); [apply emits_ret | exact IH].
Qed.

End Emits.

Lemma emits_weaken (P Q : event -> Prop) {A} (m : M A) :
  (forall e, P e -> Q e) -> emits P m -> emits Q m.
Proof.
  intros H Hm s. destruct (Hm s) as (t & E & F). exists t. split; [exact E |].
  eapply Forall_impl; eassumption.
Qed.

Ltac emits_step :=
  first
    [ apply emits_ret
    | apply emits_raise
    | apply emits_emit; exact I
    | apply emits_getattr_output
    | apply emits_alloc
    | apply emits_combine
    | apply emits_dict_get
    | apply emits_when
    | apply emits_bind; [| intros ?]
    | match goal with
      | |- emits _ (if ?b then _ else _) => destruct b
      | |- emits _ (match ?x with _ => _ end) => destruct x
      end ].

Lemma emits_config_file_path W P style_type :
  emits P (_config_file_path W style_type).
Proof. unfold _config_file_path. cbv zeta. repeat emits_step. Qed.

Lemma emits_call_py_cmd W command message env :
  emits tool_event (call_py_cmd W command message env).
Proof.
  intros s. unfold call_py_cmd.
  assert (H : forall o, emits tool_event
            (_ <- emit (EvPyCmd command message env) ;;
             match co_error o with
             | Some e =>
                 l <- alloc e ;;
                 ret {| result := co_result o; exit_code := co_exit_code o;
                        error := Some l |}
             | None =>
                 ret {| result := co_result o; exit_code := co_exit_code o;
                        error := None |}
             end)) by (intros o; repeat emits_step).
  apply H.
Qed.

Lemma emits_pylint_run W paths rcfile desc checkers env disable_all enable :
  emits tool_event (pylint_run W paths rcfile desc checkers env disable_all enable).
Proof.
  unfold pylint_run. destruct paths; [apply emits_ret |].
  cbv zeta. unfold logger_debug.
  repeat first [apply emits_call_py_cmd | emits_step].
Qed.

Lemma emits_pep8_run W paths rcfile desc :
  emits tool_event (pep8_run W paths rcfile desc).
Proof.
  unfold pep8_run. destruct paths; [apply emits_ret |].
  cbv zeta. unfold logger_debug.
  repeat first [apply emits_call_py_cmd | emits_step].
Qed.

Lemma emits_ext_glob_paths W P paths : emits P (ext_glob_paths W paths).
Proof.
  induction paths as [| p rest IH]; cbn.
  - apply emits_ret.
  - destruct (glob W _); [apply emits_raise |].
    apply emits_bind; [exact IH | intros; apply emits_ret].
Qed.

Lemma emits_run_pylint W modules checkers env disable_all enable :
  emits tool_event (run_pylint W modules checkers env disable_all enable).
Proof.
  unfold run_pylint. cbv zeta.
  repeat first [apply emits_ext_glob_paths | apply emits_config_file_path
               | apply emits_pylint_run | emits_step].
Qed.

Lemma emits_run_pep8 W modules : emits tool_event (_run_pep8 W modules).
Proof.
  unfold _run_pep8. cbv zeta.
  repeat first [apply emits_config_file_path | apply emits_pep8_run | emits_step].
Qed.

(** ** [check_style] *)

Lemma emits_report_run_pylint W modules checkers env disable_all enable :
  emits report_event (run_pylint W modules checkers env disable_all enable).
Proof.
  apply emits_weaken with (P := tool_event); [| apply emits_run_pylint].
  intros [] H; cbn in *; tauto.
Qed.

Lemma emits_report_run_pep8 W modules : emits report_event (_run_pep8 W modules).
Proof.
  apply emits_weaken with (P := tool_event); [| apply emits_run_pep8].
  intros [] H; cbn in *; tauto.
Qed.

Ltac report_step :=
  first [ apply emits_report_run_pylint | apply emits_report_run_pep8 | emits_step ].

(** When the pre-flight check does not abort, the run reaches the filter
    with [table_before_filter], after the discovery call and the pre-flight
    check; what follows only reports and runs tools. *)
Lemma check_style_reaches_filter W modules pylint pep8 gs gt gr s :
  (pylint = true -> require_azure_cli W = None) ->
  exists post,
    extends s (final_state (check_style W modules pylint pep8 gs gt gr s))
      ([EvHeading "Style Check"; EvGetPathTable (include_only_of modules)]
       ++ (if pylint then [EvRequireAzureCli] else [])
       ++ EvFilterByGitDiff (table_before_filter W modules) gs gt gr :: post)
    /\ Forall report_event post.
Proof.
  intros Hpre. unfold check_style. cbv zeta.
  erewrite bind_inr by reflexivity.
  erewrite bind_inr by reflexivity.
  assert (Hwhen : exists s2,
    when pylint
      (try_except (call_require_azure_cli W)
         (fun e => match e with
                   | CLIError _ =>
                       Some (raise (CLIError
                         "usage error: --pylint requires Azure CLI to be installed."))
                   | _ => None
                   end))
      {| st_heap := st_heap s; st_next := st_next s;
         st_trace := ((st_trace s ++ [EvHeading "Style Check"])
                      ++ [EvGetPathTable (include_only_of modules)])%list |}
    = (inr tt, s2)
    /\ st_trace s2 = (st_trace s ++ [EvHeading "Style Check";
                                    EvGetPathTable (include_only_of modules)]
                      ++ (if pylint then [EvRequireAzureCli] else []))%list).
  { destruct pylint; cbn.
    - unfold try_except, call_require_azure_cli. rewrite (Hpre eq_refl). cbn.
      eexists. split; [reflexivity |]. cbn.
      rewrite <- !app_assoc. reflexivity.
    - eexists. split; [reflexivity |]. cbn. rewrite <- !app_assoc. reflexivity. }
  destruct Hwhen as (s2 & Hw & Ht2).
  unfold include_only_of in Hw. cbn in Hw.
  erewrite bind_inr by exact Hw.
  erewrite bind_inr by reflexivity.
  match goal with
  | |- context [final_state (?K ?s3)] =>
      assert (HK : emits report_event K)
        by (repeat report_step);
      destruct (HK s3) as (post & E & F)
  end.
  exists post. split; [| exact F].
  unfold extends in *. rewrite E. cbn. rewrite Ht2.
  rewrite <- !app_assoc. reflexivity.
Qed.

Lemma filter_calls_app t1 t2 :
  filter_calls (t1 ++ t2) = (filter_calls t1 ++ filter_calls t2)%list.
Proof.
  induction t1 as [| e t1 IH]; [reflexivity |].
  destruct e; cbn; rewrite IH; reflexivity.
Qed.

Lemma filter_calls_report t : Forall report_event t -> filter_calls t = [].
Proof.
  induction 1 as [| e t He _ IH]; [reflexivity |].
  destruct e; cbn in *; try contradiction; exact IH.
Qed.

Lemma pop_removes k d : ~ In k (keys (pop k d)).
Proof.
  unfold keys, pop. intros H. apply in_map_iff in H.
  destruct H as ([k' v] & Hk & Hin). cbn in Hk. subst k'.
  apply filter_In in Hin. destruct Hin as [_ Hb]. cbn in Hb.
  rewrite String.eqb_refl in Hb. discriminate.
Qed.

Lemma pop_keeps_absent k k' d : ~ In k (keys d) -> ~ In k (keys (pop k' d)).
Proof.
  unfold keys, pop. intros H Hin. apply H.
  apply in_map_iff in Hin. destruct Hin as (kv & Hk & Hf).
  apply filter_In in Hf. apply in_map_iff. exists kv. split; [exact Hk | apply Hf].
Qed.

(** C8: when linting is requested, [check_style] calls the pre-flight check
    right after discovery, before any subprocess; when the Azure CLI is not
    installed the run ends there with the usage error and no subprocess has
    been run. *)
Theorem pylint_preflight W modules pep8 gs gt gr s :
  let run := check_style W modules true pep8 gs gt gr s in
  let preflight := [EvHeading "Style Check";
                    EvGetPathTable (include_only_of modules);
                    EvRequireAzureCli] in
  no_subprocess preflight
  /\ (exists post, extends s (final_state run) (preflight ++ post))
  /\ (forall msg, require_azure_cli W = Some msg ->
      outcome run
        = inl (CLIError "usage error: --pylint requires Azure CLI to be installed.")
      /\ extends s (final_state run) preflight).
Proof.
  cbv zeta. split; [reflexivity |].
  assert (Hfail : forall msg, require_azure_cli W = Some msg ->
    outcome (check_style W modules true pep8 gs gt gr s)
      = inl (CLIError "usage error: --pylint requires Azure CLI to be installed.")
    /\ extends s (final_state (check_style W modules true pep8 gs gt gr s))
         [EvHeading "Style Check"; EvGetPathTable (include_only_of modules);
          EvRequireAzureCli]).
  { intros msg Hm. unfold check_style. cbv zeta.
    erewrite bind_inr by reflexivity.
    erewrite bind_inr by reflexivity.
    erewrite bind_inl.
    2:{ cbn. unfold try_except, call_require_azure_cli. rewrite Hm. cbn. reflexivity. }
    split; [reflexivity |].
    unfold extends. cbn. rewrite <- !app_assoc. reflexivity. }
  split; [| exact Hfail].
  destruct (require_azure_cli W) as [msg |] eqn:Hreq.
  - exists []. rewrite app_nil_r. apply (Hfail msg eq_refl).
  - destruct (check_style_reaches_filter W modules true pep8 gs gt gr s
                (fun _ => Hreq)) as (post & E & _).
    eexists. unfold extends in *. rewrite E. cbn. reflexivity.
Qed.

Lemma pylint_preflight_witness :
  outcome (check_style Samples.no_azure_cli None true false None None None
             Samples.start)
    = inl (CLIError "usage error: --pylint requires Azure CLI to be installed.")
  /\ st_trace (final_state (check_style Samples.no_azure_cli None true false
                              None None None Samples.start))
    = [EvHeading "Style Check"; EvGetPathTable None; EvRequireAzureCli].
Proof.
  destruct (pylint_preflight Samples.no_azure_cli None false None None None
              Samples.start) as (_ & _ & H).
  exact (H "Azure CLI is not installed." eq_refl).
Defined.

(** C1: when the three partitions of the table returned by the git-diff
    filter are empty, [check_style] ends with a [CLIError] and no
    subprocess has been run; the error is ['No modules selected.'] whenever
    the pre-flight check did not abort the run before the filter. *)
Theorem no_modules_selected_fails W modules pylint pep8 gs gt gr s :
  let selected := filter_by_git_diff W (table_before_filter W modules) gs gt gr in
  pt_core selected = [] -> pt_mod selected = [] -> pt_ext selected = [] ->
  let run := check_style W modules pylint pep8 gs gt gr s in
  exists msg t,
    outcome run = inl (CLIError msg)
    /\ extends s (final_state run) t
    /\ no_subprocess t
    /\ ((pylint = true -> require_azure_cli W = None) ->
        msg = "No modules selected.").
Proof.
  cbv zeta. intros Hc Hm He.
  assert (Hany : any_selected
            (filter_by_git_diff W (table_before_filter W modules) gs gt gr) = false)
    by (unfold any_selected; rewrite Hc, Hm, He; reflexivity).
  unfold check_style. cbv zeta.
  erewrite bind_inr by reflexivity.
  erewrite bind_inr by reflexivity.
  destruct pylint; [destruct (require_azure_cli W) as [msg |] eqn:Hreq |].
  - erewrite bind_inl.
    2:{ cbn. unfold try_except, call_require_azure_cli. rewrite Hreq. cbn. reflexivity. }
    do 2 eexists. split; [reflexivity |]. split.
    + unfold extends. cbn. rewrite <- !app_assoc. reflexivity.
    + split; [reflexivity |]. intros H. discriminate (H eq_refl).
  - erewrite bind_inr.
    2:{ cbn. unfold try_except, call_require_azure_cli. rewrite Hreq. cbn. reflexivity. }
    erewrite bind_inr by reflexivity.
    unfold table_before_filter in Hany. cbv zeta in Hany. rewrite Hany. cbn.
    do 2 eexists. split; [reflexivity |]. split.
    + unfold extends. cbn. rewrite <- !app_assoc. reflexivity.
    + split; reflexivity.
  - erewrite bind_inr by reflexivity.
    erewrite bind_inr by reflexivity.
    unfold table_before_filter in Hany. cbv zeta in Hany. rewrite Hany. cbn.
    do 2 eexists. split; [reflexivity |]. split.
    + unfold extends. cbn. rewrite <- !app_assoc. reflexivity.
    + split; reflexivity.
Qed.

Lemma no_modules_selected_fails_witness :
  let run := check_style Samples.nothing_changed None false false None None None
               Samples.start in
  outcome run = inl (CLIError "No modules selected.")
  /\ commands (st_trace (final_state run)) = [].
Proof.
  destruct (no_modules_selected_fails Samples.nothing_changed None false false
              None None None Samples.start eq_refl eq_refl eq_refl)
    as (msg & t & Ho & _ & _ & Hm).
  cbv zeta. rewrite Ho, Hm; [split; reflexivity |].
  intros H. discriminate H.
Defined.

(** C6: given [["CLI"]], the filter is applied once, to a table whose
    [ext] partition is empty; given [["EXT"]], to a table whose [core] and
    [mod] partitions are empty; in both cases [core] holds neither
    [azure-cli-nspkg] nor [azure-cli-command_modules-nspkg]. *)
Theorem sentinels_clear_partitions W pylint pep8 gs gt gr s :
  (pylint = true -> require_azure_cli W = None) ->
  let discovered := get_path_table W None in
  let core := pop "azure-cli-command_modules-nspkg"
                (pop "azure-cli-nspkg" (pt_core discovered)) in
  (exists t,
      extends s (final_state (check_style W (Some ["CLI"]) pylint pep8 gs gt gr s)) t
      /\ filter_calls t
         = [{| pt_core := core; pt_mod := pt_mod discovered; pt_ext := [] |}])
  /\ (exists t,
      extends s (final_state (check_style W (Some ["EXT"]) pylint pep8 gs gt gr s)) t
      /\ filter_calls t
         = [{| pt_core := []; pt_mod := []; pt_ext := pt_ext discovered |}])
  /\ ~ In "azure-cli-nspkg" (keys core)
  /\ ~ In "azure-cli-command_modules-nspkg" (keys core).
Proof.
  intros Hpre. cbv zeta.
  assert (Hcalls : forall modules, exists t,
    extends s (final_state (check_style W modules pylint pep8 gs gt gr s)) t
    /\ filter_calls t = [table_before_filter W modules]).
  { intros modules.
    destruct (check_style_reaches_filter W modules pylint pep8 gs gt gr s Hpre)
      as (post & E & F).
    eexists. split; [exact E |].
    rewrite !filter_calls_app. cbn.
    rewrite (filter_calls_report post F).
    destruct pylint; reflexivity. }
  split; [apply (Hcalls (Some ["CLI"])) |].
  split; [apply (Hcalls (Some ["EXT"])) |].
  split.
  - apply pop_keeps_absent, pop_removes.
  - apply pop_removes.
Qed.

Lemma sentinels_clear_partitions_witness :
  (exists t,
      extends Samples.start
        (final_state (check_style Samples.clean (Some ["CLI"]) true false
                        None None None Samples.start)) t
      /\ filter_calls t
         = [{| pt_core := [("azure-cli-core", "/repo/src/azure-cli-core")];
               pt_mod := [("vm", "/repo/src/command_modules/azure-cli-vm")];
               pt_ext := [] |}])
  /\ (exists t,
      extends Samples.start
        (final_state (check_style Samples.clean (Some ["EXT"]) true false
                        None None None Samples.start)) t
      /\ filter_calls t
         = [{| pt_core := []; pt_mod := []; pt_ext := [("myext", "/ext/src/myext")] |}]).
Proof.
  destruct (sentinels_clear_partitions Samples.clean true false None None None
              Samples.start (fun _ => eq_refl)) as (Hcli & Hext & _).
  split; [exact Hcli | exact Hext].
Defined.

(** ** [run_pylint] and the extension glob *)

Lemma ext_glob_paths_fails W paths s :
  (exists path, In path paths /\ glob W (ext_pattern W path) = []) ->
  exists msg, ext_glob_paths W paths s = (inl (IndexError msg), s).
Proof.
  induction paths as [| p rest IH]; intros (path & Hin & Hg).
  - destruct Hin.
  - cbn. fold (ext_pattern W p).
    destruct (glob W (ext_pattern W p)) as [| first others] eqn:Hp.
    + eexists. reflexivity.
    + destruct Hin as [-> | Hin]; [rewrite Hg in Hp; discriminate |].
      destruct IH as (msg & E); [exists path; split; assumption |].
      exists msg. apply bind_inl. exact E.
Qed.

Lemma ext_glob_paths_total W paths s :
  (forall path, In path paths -> glob W (ext_pattern W path) <> []) ->
  exists found, ext_glob_paths W paths s = (inr found, s).
Proof.
  induction paths as [| p rest IH]; intros Hall.
  - exists []. reflexivity.
  - cbn. fold (ext_pattern W p).
    destruct (glob W (ext_pattern W p)) as [| first others] eqn:Hp.
    + exfalso. apply (Hall p); [left; reflexivity | exact Hp].
    + destruct IH as (found & E); [intros q Hq; apply Hall; right; exact Hq |].
      exists (first :: found). erewrite bind_inr by exact E. reflexivity.
Qed.

Lemma config_file_path_pylint W s :
  exists cli ext, _config_file_path W "pylint" s = (inr (cli, ext), s).
Proof.
  unfold _config_file_path. cbn.
  destruct (PyStr.truthy _); destruct (ext_repo_path W); do 2 eexists; reflexivity.
Qed.

Lemma pylint_run_total W paths rcfile desc checkers env disable_all enable s :
  exists r s',
    pylint_run W paths rcfile desc checkers env disable_all enable s = (inr r, s').
Proof.
  unfold pylint_run. destruct paths; [do 2 eexists; reflexivity |].
  cbv zeta. unfold bind, logger_debug, emit, call_py_cmd, alloc, ret. cbn.
  destruct (co_error _); do 2 eexists; reflexivity.
Qed.

(** C10: [run_pylint] raises an [IndexError], before anything is run, as
    soon as one extension path has no entry matching the prefix glob; it
    returns a result when every extension path has a match. *)
Theorem run_pylint_needs_glob_match W modules checkers env disable_all enable s :
  ((exists path, In path (values (pt_ext modules))
                 /\ glob W (OsPath.join path (EXTENSION_PREFIX W ++ "*")) = []) ->
   exists msg,
     run_pylint W modules checkers env disable_all enable s
       = (inl (IndexError msg), s))
  /\ ((forall path, In path (values (pt_ext modules)) ->
                    glob W (OsPath.join path (EXTENSION_PREFIX W ++ "*")) <> []) ->
      exists r s',
        run_pylint W modules checkers env disable_all enable s = (inr r, s')).
Proof.
  split.
  - intros H. destruct (ext_glob_paths_fails W _ s H) as (msg & E).
    exists msg. unfold run_pylint. cbv zeta. apply bind_inl. exact E.
  - intros H. destruct (ext_glob_paths_total W _ s H) as (found & E).
    unfold run_pylint. cbv zeta.
    erewrite bind_inr by exact E.
    destruct (config_file_path_pylint W s) as (cli & ext & Ec).
    erewrite bind_inr by exact Ec. cbn beta iota.
    match goal with
    | |- context [bind (pylint_run W ?p ?rc ?d ?c ?e ?da ?en) _ s] =>
        destruct (pylint_run_total W p rc d c e da en s) as (r1 & s1 & E1)
    end.
    erewrite bind_inr by exact E1.
    destruct (pylint_run_total W found ext "extensions" checkers env disable_all
                enable s1) as (r2 & s2 & E2).
    erewrite bind_inr by exact E2.
    destruct (combine_total r1 r2 s2) as (r & s' & Er & _).
    exists r, s'. exact Er.
Qed.

Lemma run_pylint_needs_glob_match_witness :
  (exists msg,
      run_pylint Samples.no_glob_match Samples.table None None false None
        Samples.start = (inl (IndexError msg), Samples.start))
  /\ (exists r s',
      run_pylint Samples.clean Samples.table None None false None Samples.start
        = (inr r, s')).
Proof.
  split.
  - apply (run_pylint_needs_glob_match Samples.no_glob_match Samples.table
             None None false None Samples.start).
    exists "/ext/src/myext". split; [left; reflexivity | reflexivity].
  - apply (run_pylint_needs_glob_match Samples.clean Samples.table
             None None false None Samples.start).
    intros path [<- | []]. discriminate.
Defined.

(** ** Reported status and the default flags *)

(** C3: on a module where pylint fails with exit code 2, [check_style
    --pylint] exits with status 2 and logs the captured output and
    ['Pylint: FAILED'], but it has displayed ['Pylint: PASSED'] first: the
    status shown for pylint does not match its outcome. *)
Theorem pylint_failure_displays_passed :
  let run := check_style Samples.lint_fails None true false None None None
               Samples.start in
  outcome run = inl (SystemExit 2)
  /\ displayed (st_trace (final_state run))
     = ["Modules: azure-cli-core" ++ LF; "Pylint: PASSED"]
  /\ logged_errors (st_trace (final_state run))
     = ["E0001: syntax-error"; "Pylint: FAILED" ++ LF].
Proof. repeat split; vm_compute; reflexivity. Qed.

(** C4: where the Azure CLI is not installed, [check_style] with both flags
    false skips the pre-flight check, runs pylint and flake8 and exits with
    their summed status, whereas with both flags true it stops at the
    pre-flight check with a usage error and runs nothing. *)
Theorem omitted_flags_skip_preflight :
  let omitted := check_style Samples.no_azure_cli None false false None None None
                   Samples.start in
  let explicit := check_style Samples.no_azure_cli None true true None None None
                    Samples.start in
  outcome omitted = inl (SystemExit 0)
  /\ preflight_checks (st_trace (final_state omitted)) = 0%nat
  /\ commands (st_trace (final_state omitted))
     = ["pylint /repo/src/azure-cli-core/azure/cli/core --rcfile=/home/dev/.azdev/config_files/cli_pylintrc --jobs 4";
        "flake8 --statistics --append-config=/home/dev/.azdev/config_files/cli.flake8 /repo/src/azure-cli-core"]
  /\ outcome explicit
     = inl (CLIError "usage error: --pylint requires Azure CLI to be installed.")
  /\ preflight_checks (st_trace (final_state explicit)) = 1%nat
  /\ commands (st_trace (final_state explicit)) = [].
Proof. repeat split; vm_compute; reflexivity. Qed.

(** ** Further properties of [_combine_command_result] *)

(** Both results present: the value returned and what happens to the heap.
    Only the error object the combination adopts is written to, and only
    its [message]. *)
Lemma combine_both a b s :
  exists s',
    _combine_command_result (Some a) (Some b) s = (inr (combined a b), s')
    /\ st_trace s' = st_trace s
    /\ st_next s' = st_next s
    /\ (forall l, error (combined a b) <> Some l -> st_heap s' l = st_heap s l)
    /\ (forall l, exn_str (st_heap s' l) = exn_str (st_heap s l)
                  /\ exn_output (st_heap s' l) = exn_output (st_heap s l)).
Proof.
  unfold _combine_command_result.
  rewrite (bind_inr _ _ _ _ _ (apply_result_fresh a s)).
  destruct a as [ra ca ea], b as [rb cb eb]. unfold combined. cbn [result exit_code error].
  destruct ea as [la |].
  - destruct eb as [lb |].
    + erewrite apply_result_append; [| reflexivity | reflexivity | apply mark_message].
      eexists. split.
      { unfold merged_text, kept_text. cbn.
        destruct (result_truthy ra) eqn:Ha; destruct (result_truthy rb) eqn:Hb;
          cbn; rewrite ?Ha; reflexivity. }
      cbn. split; [reflexivity |]. split; [reflexivity |]. split.
      * intros l Hl. rewrite !upd_other by congruence. reflexivity.
      * intros l. unfold upd. destruct (Nat.eqb_spec l la); [subst; cbn |];
          rewrite ?Nat.eqb_refl; split; reflexivity.
    + rewrite apply_result_keep by reflexivity.
      eexists. split.
      { unfold merged_text, kept_text. cbn.
        destruct (result_truthy ra) eqn:Ha; destruct (result_truthy rb) eqn:Hb;
          cbn; rewrite ?Ha; reflexivity. }
      cbn. split; [reflexivity |]. split; [reflexivity |]. split.
      * intros l Hl. rewrite upd_other by congruence. reflexivity.
      * intros l. unfold upd. destruct (Nat.eqb_spec l la); [subst |];
          split; reflexivity.
  - rewrite apply_result_adopt by reflexivity.
    eexists. split.
    { unfold merged_text, kept_text. cbn.
      destruct (result_truthy ra) eqn:Ha; destruct (result_truthy rb) eqn:Hb;
        cbn; rewrite ?Ha; reflexivity. }
    cbn [result exit_code error].
    split; [apply mark_trace |]. split; [apply mark_next |]. split.
    + intros l Hl. destruct eb as [lb |]; [| reflexivity].
      cbn. rewrite upd_other by congruence. reflexivity.
    + intros l. destruct eb as [lb |]; [| split; reflexivity].
      cbn. unfold upd. destruct (Nat.eqb_spec l lb); [subst |]; split; reflexivity.
Qed.

(** X1: the result text of a combination is the first text followed by the
    second; a text that is absent or empty is skipped, and when both are
    the combination has no result text. *)
Theorem combine_concatenates_result_text a b s :
  exists r s',
    _combine_command_result (Some a) (Some b) s = (inr r, s')
    /\ result r =
       if result_truthy (result a) then
         if result_truthy (result b)
         then Some (text_of (result a) ++ text_of (result b))
         else result a
       else if result_truthy (result b) then result b else None.
Proof.
  destruct (combine_both a b s) as (s' & E & _).
  exists (combined a b), s'. split; [exact E |].
  unfold combined. cbn.
  destruct (result_truthy (result a)); destruct (result_truthy (result b));
    reflexivity.
Qed.


(** ** Rules for [behaves] and [satisfies] *)

Lemma behaves_bind {A B} (m : M A) (k : A -> M B) R1 R2
    (R : list event -> list event -> exception + B -> Prop) :
  behaves m R1 ->
  (forall a, (exists h t, R1 h t (inr a)) -> behaves (k a) (R2 a)) ->
  (forall h t e, R1 h t (inl e) -> R h t (inl e)) ->
  (forall h t1 a t2 o,
      R1 h t1 (inr a) -> R2 a (h ++ t1)%list t2 o -> R h (t1 ++ t2)%list o) ->
  behaves (bind m k) R.
Proof.
  intros Hm Hk Hraise Hseq s.
  destruct (Hm s) as (t1 & E1 & H1).
  unfold bind, final_state, outcome, extends in *.
  destruct (m s) as [[e | a] s1]; cbn in E1, H1.
  - exists t1. split; [exact E1 | apply Hraise; exact H1].
  - destruct (Hk a (ex_intro _ _ (ex_intro _ _ H1)) s1) as (t2 & E2 & H2).
    exists (t1 ++ t2)%list. split.
    + rewrite E2, E1, app_assoc. reflexivity.
    + eapply Hseq; [exact H1 |]. rewrite <- E1. exact H2.
Qed.

Lemma behaves_weaken {A} (m : M A)
    (R R' : list event -> list event -> exception + A -> Prop) :
  (forall h t o, R h t o -> R' h t o) -> behaves m R -> behaves m R'.
Proof.
  intros H Hm s. destruct (Hm s) as (t & E & Hr). exists t. split; auto.
Qed.

Section Satisfies.

Context (P : event -> Prop) (E : exception -> Prop).

Lemma sat_bind {A B} (m : M A) (k : A -> M B) (Q1 : A -> Prop) (Q : B -> Prop) :
  satisfies P Q1 E m ->
  (forall a, Q1 a -> satisfies P Q E (k a)) ->
  satisfies P Q E (bind m k).
Proof.
  intros Hm Hk. unfold satisfies.
  eapply behaves_bind with
    (R2 := fun _ _ t o => Forall P t /\ match o with inr b => Q b | inl e => E e end).
  - exact Hm.
  - intros a (h & t & _ & Ha). apply Hk. exact Ha.
  - intros h t e H. exact H.
  - intros h t1 a t2 o [F1 _] [F2 Ho]. split; [| exact Ho].
    apply Forall_app. split; assumption.
Qed.

Lemma sat_ret {A} (Q : A -> Prop) a : Q a -> satisfies P Q E (ret a).
Proof.
  intros H s. exists []. split; [| split; [constructor | exact H]].
  unfold extends. cbn. rewrite app_nil_r. reflexivity.
Qed.

Lemma sat_raise {A} (Q : A -> Prop) e : E e -> satisfies P Q E (raise e).
Proof.
  intros H s. exists []. split; [| split; [constructor | exact H]].
  unfold extends. cbn. rewrite app_nil_r. reflexivity.
Qed.

Lemma sat_emit (Q : unit -> Prop) e : P e -> Q tt -> satisfies P Q E (emit e).
Proof.
  intros Hp Hq s. exists [e]. split; [reflexivity |].
  split; [repeat constructor; exact Hp | exact Hq].
Qed.

Lemma sat_when (Q : unit -> Prop) b m :
  Q tt -> satisfies P Q E m -> satisfies P Q E (when b m).
Proof. intros Hq Hm. destruct b; [exact Hm | apply sat_ret; exact Hq]. Qed.

(** A computation known to return, with known events. *)
Lemma sat_total {A} (Q : A -> Prop) (m : M A) :
  emits P m ->
  (forall s, exists a s', m s = (inr a, s') /\ Q a) ->
  satisfies P Q E m.
Proof.
  intros He Ht s. destruct (He s) as (t & Ex & F).
  destruct (Ht s) as (a & s' & Em & Hq).
  exists t. split; [exact Ex |]. split; [exact F |].
  unfold outcome. rewrite Em. exact Hq.
Qed.

End Satisfies.

Lemma sat_weaken {A} (P P' : event -> Prop) (Q Q' : A -> Prop)
    (E E' : exception -> Prop) (m : M A) :
  (forall e, P e -> P' e) -> (forall a, Q a -> Q' a) -> (forall e, E e -> E' e) ->
  satisfies P Q E m -> satisfies P' Q' E' m.
Proof.
  intros Hp Hq He. apply behaves_weaken.
  intros h t o [F Ho]. split.
  - eapply Forall_impl; eassumption.
  - destruct o; auto.
Qed.

(** ** The runners, step by step *)

Lemma exit_sum_app W h t1 t2 :
  exit_sum W h (t1 ++ t2) = exit_sum W h t1 + exit_sum W (h ++ t1)%list t2.
Proof.
  revert h. induction t1 as [| e t1 IH]; intros h; cbn.
  - rewrite app_nil_r. reflexivity.
  - rewrite IH, <- app_assoc. cbn. lia.
Qed.

Lemma commands_app t1 t2 : commands (t1 ++ t2) = (commands t1 ++ commands t2)%list.
Proof.
  induction t1 as [| e t1 IH]; [reflexivity |].
  destruct e; cbn; rewrite IH; reflexivity.
Qed.

Lemma str_app_assoc (a b c : string) : ((a ++ b) ++ c)%string = (a ++ b ++ c)%string.
Proof. induction a as [| x a IH]; cbn; [reflexivity | rewrite IH; reflexivity]. Qed.

Lemma str_app_nil_r (a : string) : (a ++ "")%string = a.
Proof. induction a as [| x a IH]; cbn; [reflexivity | rewrite IH; reflexivity]. Qed.

Lemma prefix_nil s : String.prefix EmptyString s = true.
Proof. destruct s; reflexivity. Qed.

Lemma call_py_cmd_spec W command message env s :
  exists r s',
    call_py_cmd W command message env s = (inr r, s')
    /\ st_trace s' = (st_trace s ++ [EvPyCmd command message env])%list
    /\ exit_code r = co_exit_code (py_cmd W (st_trace s) command message env)
    /\ result r = co_result (py_cmd W (st_trace s) command message env)
    /\ (co_error (py_cmd W (st_trace s) command message env) = None ->
        error r = None).
Proof.
  unfold call_py_cmd, bind, emit, alloc, ret. cbn.
  destruct (co_error _) eqn:He; do 2 eexists; cbn;
    (split; [reflexivity |]); repeat split; try reflexivity.
  intros H. discriminate H.
Qed.

Lemma pep8_run_spec W paths rcfile desc s :
  exists o s' t,
    pep8_run W paths rcfile desc s = (inr o, s')
    /\ extends s s' t
    /\ commands t = flake8_commands rcfile paths
    /\ Forall flake8_only_event t
    /\ Forall tool_event t
    /\ opt_exit_code o = exit_sum W (st_trace s) t
    /\ (no_command_fails W -> opt_error o = None).
Proof.
  unfold pep8_run. destruct paths as [| p ps].
  - exists None, s, []. unfold extends. rewrite app_nil_r.
    repeat split; constructor.
  - unfold logger_debug.
    erewrite bind_inr by reflexivity.
    erewrite bind_inr by reflexivity.
    match goal with
    | |- context [bind (call_py_cmd W ?c ?m ?e) _ ?s1] =>
        destruct (call_py_cmd_spec W c m e s1) as (r & s' & Ec & Ht & Hx & _ & Herr)
    end.
    erewrite bind_inr by exact Ec.
    eexists (Some r), s', _. split; [reflexivity |].
    split; [unfold extends; rewrite Ht; cbn; rewrite <- !app_assoc; reflexivity |].
    split; [reflexivity |].
    split; [repeat constructor; cbn; apply prefix_nil |].
    split; [repeat constructor |].
    split.
    + cbn in *. rewrite Hx. lia.
    + intros Hok. cbn. apply Herr, Hok.
Qed.

Lemma pylint_run_spec W paths rcfile desc checkers env disable_all enable s :
  exists o s' t,
    pylint_run W paths rcfile desc checkers env disable_all enable s = (inr o, s')
    /\ extends s s' t
    /\ Forall pylint_only_event t
    /\ Forall tool_event t
    /\ commands t = pylint_commands W rcfile checkers disable_all enable paths
    /\ opt_exit_code o = exit_sum W (st_trace s) t
    /\ (no_command_fails W -> opt_error o = None).
Proof.
  unfold pylint_run. destruct paths as [| p ps].
  - exists None, s, []. unfold extends. rewrite app_nil_r.
    repeat split; constructor.
  - cbv zeta. unfold logger_debug.
    erewrite bind_inr by reflexivity.
    erewrite bind_inr by reflexivity.
    match goal with
    | |- context [bind (call_py_cmd W ?c ?m ?e) _ ?s1] =>
        destruct (call_py_cmd_spec W c m e s1) as (r & s' & Ec & Ht & Hx & _ & Herr);
        erewrite bind_inr by exact Ec;
        exists (Some r), s',
          [EvLogDebug ("Using rcfile file: " ++ rcfile);
           EvLogDebug ("Running on " ++ desc ++ ": " ++ PyStr.join LF (p :: ps));
           EvPyCmd c m e]
    end.
    split; [reflexivity |].
    split; [unfold extends; rewrite Ht; cbn [st_trace]; rewrite <- !app_assoc;
            reflexivity |].
    split.
    { repeat constructor.
      destruct checkers; destruct disable_all; destruct enable; cbn;
        apply prefix_nil. }
    split; [repeat constructor |].
    split.
    { unfold pylint_commands, pylint_options. cbn [commands]. f_equal.
      destruct checkers; destruct disable_all; destruct enable;
        rewrite ?str_app_assoc, ?str_app_nil_r; reflexivity. }
    split.
    + cbn [st_trace] in Hx. cbn [exit_sum opt_exit_code]. rewrite Hx. lia.
    + intros Hok. cbn. apply Herr, Hok.
Qed.

Lemma combine_opt_spec a b s :
  exists r s',
    _combine_command_result a b s = (inr r, s')
    /\ st_trace s' = st_trace s
    /\ exit_code r = opt_exit_code a + opt_exit_code b
    /\ (opt_error a = None -> opt_error b = None -> error r = None).
Proof.
  destruct a as [a |], b as [b |].
  - destruct (combine_both a b s) as (s' & E & Ht & _).
    exists (combined a b), s'. split; [exact E |]. split; [exact Ht |].
    split; [reflexivity |]. cbn. intros Ha Hb. rewrite Ha. exact Hb.
  - unfold _combine_command_result.
    rewrite (bind_inr _ _ _ _ _ (apply_result_fresh a s)), apply_result_absent.
    do 2 eexists. split; [reflexivity |]. split; [apply mark_trace |].
    cbn. split; [lia | auto].
  - unfold _combine_command_result.
    rewrite (bind_inr _ _ _ _ _ (apply_result_absent _ s)), apply_result_fresh.
    do 2 eexists. split; [reflexivity |]. split; [apply mark_trace |].
    cbn. split; [lia | auto].
  - do 2 eexists. split; [reflexivity |]. cbn. repeat split.
Qed.

Lemma config_file_path_flake8 W s :
  exists cli ext, _config_file_path W "flake8" s = (inr (cli, ext), s).
Proof.
  unfold _config_file_path. cbn.
  destruct (PyStr.truthy _); destruct (ext_repo_path W); do 2 eexists; reflexivity.
Qed.

Lemma run_pep8_spec W modules s :
  exists cli_config ext_config r s' t,
    _config_file_path W "flake8" s = (inr (cli_config, ext_config), s)
    /\ _run_pep8 W modules s = (inr r, s')
    /\ extends s s' t
    /\ commands t
       = (flake8_commands cli_config
            (values (pt_core modules) ++ values (pt_mod modules))
          ++ flake8_commands ext_config (values (pt_ext modules)))%list
    /\ Forall flake8_only_event t
    /\ Forall tool_event t
    /\ exit_code r = exit_sum W (st_trace s) t
    /\ (no_command_fails W -> error r = None).
Proof.
  destruct (config_file_path_flake8 W s) as (cli & ext & Ec).
  exists cli, ext. unfold _run_pep8. cbv zeta.
  erewrite bind_inr by exact Ec. cbn beta iota.
  destruct (pep8_run_spec W (values (pt_core modules) ++ values (pt_mod modules))
              cli "modules" s)
    as (o1 & s1 & t1 & E1 & X1 & C1 & F1 & G1 & S1 & N1).
  erewrite bind_inr by exact E1.
  destruct (pep8_run_spec W (values (pt_ext modules)) ext "extensions" s1)
    as (o2 & s2 & t2 & E2 & X2 & C2 & F2 & G2 & S2 & N2).
  erewrite bind_inr by exact E2.
  destruct (combine_opt_spec o1 o2 s2) as (r & s' & Er & Ht & Hx & Hn).
  exists r, s', (t1 ++ t2)%list.
  split; [exact Ec |]. split; [exact Er |].
  unfold extends in *.
  split; [rewrite Ht, X2, X1, app_assoc; reflexivity |].
  split; [rewrite commands_app, C1, C2; reflexivity |].
  split; [apply Forall_app; split; assumption |].
  split; [apply Forall_app; split; assumption |].
  split.
  - rewrite Hx, S1, S2, exit_sum_app, X1. reflexivity.
  - intros Hok. apply Hn; [apply N1 | apply N2]; exact Hok.
Qed.

Lemma ext_glob_paths_cases W paths s :
  (exists found,
      ext_glob_paths W paths s = (inr found, s)
      /\ found = map (fun path => hd EmptyString (glob W (ext_pattern W path))) paths
      /\ forall path, In path paths -> glob W (ext_pattern W path) <> [])
  \/ (ext_glob_paths W paths s = (inl (IndexError "list index out of range"), s)
      /\ exists path, In path paths /\ glob W (ext_pattern W path) = []).
Proof.
  induction paths as [| p rest IH].
  - left. exists []. repeat split. intros path [].
  - cbn. fold (ext_pattern W p).
    destruct (glob W (ext_pattern W p)) as [| first others] eqn:Hp.
    + right. split; [reflexivity |]. exists p. split; [left; reflexivity | exact Hp].
    + destruct IH as [(found & E & Hf & Hall) | (E & path & Hin & Hg)].
      * left. exists (first :: found). erewrite bind_inr by exact E.
        split; [reflexivity |]. split; [rewrite Hf; reflexivity |].
        intros path [<- | Hin]; [rewrite Hp; discriminate | apply Hall; exact Hin].
      * right. split; [apply bind_inl; exact E |].
        exists path. split; [right; exact Hin | exact Hg].
Qed.

Lemma run_pylint_spec W modules checkers env disable_all enable s :
  (run_pylint W modules checkers env disable_all enable s
     = (inl (IndexError "list index out of range"), s)
   /\ exists path, In path (values (pt_ext modules))
                   /\ glob W (ext_pattern W path) = [])
  \/ (exists cli_rc ext_rc r s' t,
        _config_file_path W "pylint" s = (inr (cli_rc, ext_rc), s)
        /\ run_pylint W modules checkers env disable_all enable s = (inr r, s')
        /\ extends s s' t
        /\ commands t
           = (pylint_commands W cli_rc checkers disable_all enable
                (get_core_module_paths modules ++ values (pt_mod modules))
              ++ pylint_commands W ext_rc checkers disable_all enable
                   (map (first_match W) (values (pt_ext modules))))%list
        /\ Forall pylint_only_event t
        /\ Forall tool_event t
        /\ exit_code r = exit_sum W (st_trace s) t
        /\ (no_command_fails W -> error r = None)).
Proof.
  unfold run_pylint. cbv zeta.
  destruct (ext_glob_paths_cases W (values (pt_ext modules)) s)
    as [(found & E & Hfound & _) | (E & Hmiss)].
  2:{ left. split; [apply bind_inl; exact E | exact Hmiss]. }
  right. erewrite bind_inr by exact E.
  destruct (config_file_path_pylint W s) as (cli & ext & Ec).
  exists cli, ext.
  erewrite bind_inr by exact Ec. cbn beta iota.
  match goal with
  | |- context [bind (pylint_run W ?p ?rc ?d ?c ?e ?da ?en) _ s] =>
      destruct (pylint_run_spec W p rc d c e da en s)
        as (o1 & s1 & t1 & E1 & X1 & F1 & G1 & C1 & S1 & N1)
  end.
  erewrite bind_inr by exact E1.
  destruct (pylint_run_spec W found ext "extensions" checkers env disable_all
              enable s1)
    as (o2 & s2 & t2 & E2 & X2 & F2 & G2 & C2 & S2 & N2).
  erewrite bind_inr by exact E2.
  destruct (combine_opt_spec o1 o2 s2) as (r & s' & Er & Ht & Hx & Hn).
  exists r, s', (t1 ++ t2)%list.
  split; [exact Ec |].
  split; [exact Er |].
  unfold extends in *.
  split; [rewrite Ht, X2, X1, app_assoc; reflexivity |].
  split; [rewrite commands_app, C1, C2, Hfound; reflexivity |].
  split; [apply Forall_app; split; assumption |].
  split; [apply Forall_app; split; assumption |].
  split.
  - rewrite Hx, S1, S2, exit_sum_app, X1. reflexivity.
  - intros Hok. apply Hn; [apply N1 | apply N2]; exact Hok.
Qed.

(** ** [check_style] by phases *)

Lemma check_style_phases W modules pylint pep8 gs gt gr :
  check_style W modules pylint pep8 gs gt gr =
  (heading "Style Check" ;;
   discovered <- call_get_path_table W (include_only_of modules) ;;
   preflight W pylint ;;
   selected <- call_filter_by_git_diff W (prepare modules discovered) gs gt gr ;;
   report_phase W selected pylint pep8).
Proof. reflexivity. Qed.

Lemma tool_is_report e : tool_event e -> report_event e.
Proof. destruct e; cbn; tauto. Qed.

Lemma tool_is_not_error_log e : tool_event e -> not_error_log e.
Proof. destruct e; cbn; tauto. Qed.

(** The result of [check_style]'s pylint step: the running sum grows by the
    exit codes of the commands run; the only exception is the
    [IndexError] of the extension glob. *)
Lemma pylint_step_spec W selected c0 :
  behaves (pylint_step W selected c0) (fun h t o =>
    Forall report_event t
    /\ Forall pylint_only_event t
    /\ (no_command_fails W -> Forall not_error_log t)
    /\ match o with
       | inl e => e = IndexError "list index out of range"
       | inr c => c = c0 + exit_sum W h t
       end).
Proof.
  intros s. unfold pylint_step, final_state, outcome.
  destruct (run_pylint_spec W selected None None false None s)
    as [[E _] | (cli_rc & ext_rc & r & s' & t & _ & E & X & _ & Fp & Ft & Hx & Hn)].
  - exists []. rewrite (bind_inl _ _ _ _ _ E). cbn.
    split; [unfold extends; rewrite app_nil_r; reflexivity |].
    split; [constructor |]. split; [constructor |].
    split; [intros _; constructor | reflexivity].
  - erewrite bind_inr by exact E. cbv zeta.
    assert (Fr : Forall report_event t)
      by (eapply Forall_impl; [apply tool_is_report | exact Ft]).
    assert (Fn : Forall not_error_log t)
      by (eapply Forall_impl; [apply tool_is_not_error_log | exact Ft]).
    unfold extends in *.
    destruct (error r) as [l |] eqn:Herr.
    + exists (t ++ [EvDisplay "Pylint: PASSED";
                    EvLogError (exn_output (st_heap s' l));
                    EvLogError ("Pylint: FAILED" ++ LF)])%list.
      cbn. split; [rewrite X, <- !app_assoc; reflexivity |].
      split; [apply Forall_app; split; [exact Fr | repeat constructor] |].
      split; [apply Forall_app; split; [exact Fp | repeat constructor] |].
      split; [intros Hok; discriminate (Hn Hok) |].
      rewrite exit_sum_app, Hx. cbn. lia.
    + exists (t ++ [EvDisplay ("Pylint: PASSED" ++ LF)])%list.
      cbn. split; [rewrite X, <- !app_assoc; reflexivity |].
      split; [apply Forall_app; split; [exact Fr | repeat constructor] |].
      split; [apply Forall_app; split; [exact Fp | repeat constructor] |].
      split; [intros _; apply Forall_app; split; [exact Fn | repeat constructor] |].
      rewrite exit_sum_app, Hx. cbn. lia.
Qed.

(** The flake8 step never raises. *)
Lemma pep8_step_spec W selected c0 :
  behaves (pep8_step W selected c0) (fun h t o =>
    Forall report_event t
    /\ Forall flake8_only_event t
    /\ (no_command_fails W -> Forall not_error_log t)
    /\ match o with
       | inl e => False
       | inr c => c = c0 + exit_sum W h t
       end).
Proof.
  intros s. unfold pep8_step, final_state, outcome.
  destruct (run_pep8_spec W selected s)
    as (cli & ext & r & s' & t & _ & E & X & _ & Fp & Ft & Hx & Hn).
  erewrite bind_inr by exact E. cbv zeta.
  assert (Fr : Forall report_event t)
    by (eapply Forall_impl; [apply tool_is_report | exact Ft]).
  assert (Fn : Forall not_error_log t)
    by (eapply Forall_impl; [apply tool_is_not_error_log | exact Ft]).
  unfold extends in *.
  destruct (error r) as [l |] eqn:Herr.
  - exists (t ++ [EvLogError (exn_output (st_heap s' l));
                  EvLogError ("Flake8: FAILED" ++ LF)])%list.
    cbn. split; [rewrite X, <- !app_assoc; reflexivity |].
    split; [apply Forall_app; split; [exact Fr | repeat constructor] |].
    split; [apply Forall_app; split; [exact Fp | repeat constructor] |].
    split; [intros Hok; discriminate (Hn Hok) |].
    rewrite exit_sum_app, Hx. cbn. lia.
  - exists (t ++ [EvDisplay ("Flake8: PASSED" ++ LF)])%list.
    cbn. split; [rewrite X, <- !app_assoc; reflexivity |].
    split; [apply Forall_app; split; [exact Fr | repeat constructor] |].
    split; [apply Forall_app; split; [exact Fp | repeat constructor] |].
    split; [intros _; apply Forall_app; split; [exact Fn | repeat constructor] |].
    rewrite exit_sum_app, Hx. cbn. lia.
Qed.

Lemma behaves_run {A} (m : M A) R s :
  behaves m R ->
  exists o s' t,
    m s = (o, s') /\ st_trace s' = (st_trace s ++ t)%list /\ R (st_trace s) t o.
Proof.
  intros H. destruct (H s) as (t & X & Hr).
  unfold extends, final_state, outcome in *.
  destruct (m s) as [o s'] eqn:E. exists o, s', t. repeat split; assumption.
Qed.

(** Both tools in sequence, then [sys.exit]. *)
Lemma run_tools_spec W selected pylint pep8 :
  behaves (run_tools W selected pylint pep8) (fun h t o =>
    Forall report_event t
    /\ (pylint = false -> Forall flake8_only_event t)
    /\ (pep8 = false -> Forall pylint_only_event t)
    /\ (no_command_fails W -> Forall not_error_log t)
    /\ exists e,
         o = inl e
         /\ ((pylint = true /\ e = IndexError "list index out of range")
             \/ e = SystemExit (exit_sum W h t))).
Proof.
  intros s. unfold run_tools, final_state, outcome.
  assert (Hfirst : exists o s1 t1,
    (if pylint then pylint_step W selected 0 else ret 0) s = (o, s1)
    /\ st_trace s1 = (st_trace s ++ t1)%list
    /\ Forall report_event t1
    /\ Forall pylint_only_event t1
    /\ (pylint = false -> t1 = [])
    /\ (no_command_fails W -> Forall not_error_log t1)
    /\ match o with
       | inl e => pylint = true /\ e = IndexError "list index out of range"
       | inr c => c = exit_sum W (st_trace s) t1
       end).
  { destruct pylint.
    - destruct (behaves_run _ _ s (pylint_step_spec W selected 0))
        as (o & s1 & t1 & E & X & Fr & Fp & Fn & Ho).
      exists o, s1, t1. repeat (split; [assumption || discriminate |]).
      destruct o; [split; [reflexivity | exact Ho] | rewrite Ho; lia].
    - exists (inr 0), s, []. rewrite app_nil_r.
      repeat (split; [reflexivity || constructor || (intros; constructor) |]).
      reflexivity. }
  destruct Hfirst as (o & s1 & t1 & E1 & X1 & Fr1 & Fp1 & Hnil1 & Fn1 & Ho1).
  destruct o as [e | c].
  - rewrite (bind_inl _ _ _ _ _ E1). cbn. exists t1.
    split; [exact X1 |]. split; [exact Fr1 |].
    split; [intros Hp; destruct Ho1 as [Ht _]; congruence |].
    split; [intros _; exact Fp1 |]. split; [exact Fn1 |].
    exists e. split; [reflexivity | left; exact Ho1].
  - rewrite (bind_inr _ _ _ _ _ E1).
    assert (Hsecond : exists c' s2 t2,
      (if pep8 then pep8_step W selected c else ret c) s1 = (inr c', s2)
      /\ st_trace s2 = (st_trace s1 ++ t2)%list
      /\ Forall report_event t2
      /\ Forall flake8_only_event t2
      /\ (pep8 = false -> t2 = [])
      /\ (no_command_fails W -> Forall not_error_log t2)
      /\ c' = c + exit_sum W (st_trace s1) t2).
    { destruct pep8.
      - destruct (behaves_run _ _ s1 (pep8_step_spec W selected c))
          as (o & s2 & t2 & E & X & Fr & Fp & Fn & Ho).
        destruct o as [e | c']; [contradiction |].
        exists c', s2, t2. repeat (split; [assumption || discriminate |]).
        exact Ho.
      - exists c, s1, []. rewrite app_nil_r.
        repeat (split; [reflexivity || constructor || (intros; constructor) |]).
        cbn. lia. }
    destruct Hsecond as (c' & s2 & t2 & E2 & X2 & Fr2 & Fp2 & Hnil2 & Fn2 & Hc').
    rewrite (bind_inr _ _ _ _ _ E2). unfold sys_exit, raise. cbn.
    exists (t1 ++ t2)%list.
    split; [unfold extends; rewrite X2, X1, app_assoc; reflexivity |].
    split; [apply Forall_app; split; assumption |].
    split; [intros Hp; rewrite (Hnil1 Hp); exact Fp2 |].
    split; [intros Hp; rewrite (Hnil2 Hp), app_nil_r; exact Fp1 |].
    split; [intros Hok; apply Forall_app; split; auto |].
    eexists. split; [reflexivity |]. right.
    rewrite exit_sum_app, Hc', Ho1, X1. reflexivity.
Qed.

Lemma when_display_spec b msg s :
  exists s1 d,
    when b (display msg) s = (inr tt, s1)
    /\ st_trace s1 = (st_trace s ++ d)%list
    /\ Forall is_display d.
Proof.
  destruct b.
  - eexists _, [EvDisplay msg]. split; [reflexivity |].
    split; [reflexivity | repeat constructor].
  - exists s, []. split; [reflexivity |]. rewrite app_nil_r.
    split; [reflexivity | constructor].
Qed.

Lemma exit_sum_display W h d t :
  Forall is_display d -> exit_sum W h (d ++ t) = exit_sum W (h ++ d)%list t.
Proof.
  intros H. revert h. induction H as [| e d He _ IH]; intros h; cbn.
  - rewrite app_nil_r. reflexivity.
  - rewrite IH, <- app_assoc. destruct e; cbn in *; try contradiction. lia.
Qed.

Lemma display_is_report e : is_display e -> report_event e.
Proof. destruct e; cbn; tauto. Qed.

Lemma display_is_flake8_only e : is_display e -> flake8_only_event e.
Proof. destruct e; cbn; tauto. Qed.

Lemma display_is_pylint_only e : is_display e -> pylint_only_event e.
Proof. destruct e; cbn; tauto. Qed.

Lemma display_is_not_error_log e : is_display e -> not_error_log e.
Proof. destruct e; cbn; tauto. Qed.

(** Everything after the filter. *)
Lemma report_phase_spec W selected pylint pep8 :
  behaves (report_phase W selected pylint pep8) (fun h t o =>
    Forall report_event t
    /\ (pylint = false -> pep8 = true -> Forall flake8_only_event t)
    /\ (pylint = true -> pep8 = false -> Forall pylint_only_event t)
    /\ (no_command_fails W -> Forall not_error_log t)
    /\ exists e,
         o = inl e
         /\ ((any_selected selected = false
              /\ e = CLIError "No modules selected." /\ t = [])
             \/ (any_selected selected = true
                 /\ ~ (pylint = false /\ pep8 = true)
                 /\ e = IndexError "list index out of range")
             \/ (any_selected selected = true
                 /\ e = SystemExit (exit_sum W h t)))).
Proof.
  intros s. unfold report_phase, final_state, outcome.
  destruct (any_selected selected) eqn:Hany; cbn [negb].
  2:{ exists []. cbn. unfold extends. rewrite app_nil_r.
      split; [reflexivity |].
      repeat (split; [constructor || (intros; constructor) |]).
      eexists. split; [reflexivity |]. left. repeat split. }
  cbv zeta.
  match goal with
  | |- context [bind (when ?b (display ?m)) _ s] =>
      destruct (when_display_spec b m s) as (s1 & d1 & E1 & X1 & D1)
  end.
  rewrite (bind_inr _ _ _ _ _ E1).
  match goal with
  | |- context [bind (when ?b (display ?m)) _ s1] =>
      destruct (when_display_spec b m s1) as (s2 & d2 & E2 & X2 & D2)
  end.
  rewrite (bind_inr _ _ _ _ _ E2).
  match goal with
  | |- context [run_tools W selected ?p ?q s2] =>
      destruct (behaves_run _ _ s2 (run_tools_spec W selected p q))
        as (o & s3 & t & E3 & X3 & Fr & Ff & Fp & Fn & e & Ho & He);
      rewrite E3
  end.
  cbn [fst snd].
  assert (D : Forall is_display (d1 ++ d2)) by (apply Forall_app; split; assumption).
  exists ((d1 ++ d2) ++ t)%list.
  split; [unfold extends; rewrite X3, X2, X1, !app_assoc; reflexivity |].
  split.
  { apply Forall_app. split; [| exact Fr].
    eapply Forall_impl; [apply display_is_report | exact D]. }
  split.
  { intros -> ->. apply Forall_app. split.
    - eapply Forall_impl; [apply display_is_flake8_only | exact D].
    - apply Ff. reflexivity. }
  split.
  { intros -> ->. apply Forall_app. split.
    - eapply Forall_impl; [apply display_is_pylint_only | exact D].
    - apply Fp. reflexivity. }
  split.
  { intros Hok. apply Forall_app. split.
    - eapply Forall_impl; [apply display_is_not_error_log | exact D].
    - apply Fn. exact Hok. }
  exists e. split; [exact Ho |]. right.
  destruct He as [[Hp He] | He].
  - left. split; [reflexivity |]. split; [| exact He].
    intros [-> ->]. discriminate Hp.
  - right. split; [reflexivity |]. rewrite He.
    rewrite exit_sum_display by exact D.
    rewrite X2, X1, <- app_assoc. reflexivity.
Qed.

Lemma exit_sum_quiet W h pre t :
  Forall (fun e => is_subprocess e = false) pre ->
  exit_sum W h (pre ++ t) = exit_sum W (h ++ pre)%list t.
Proof.
  intros H. revert h. induction H as [| e pre He _ IH]; intros h; cbn.
  - rewrite app_nil_r. reflexivity.
  - rewrite IH, <- app_assoc. destruct e; cbn in *; try discriminate; lia.
Qed.

Lemma discovery_calls_app t1 t2 :
  discovery_calls (t1 ++ t2) = (discovery_calls t1 ++ discovery_calls t2)%list.
Proof.
  induction t1 as [| e t1 IH]; [reflexivity |].
  destruct e; cbn; rewrite IH; reflexivity.
Qed.

Lemma discovery_calls_report t : Forall report_event t -> discovery_calls t = [].
Proof.
  induction 1 as [| e t He _ IH]; [reflexivity |].
  destruct e; cbn in *; try contradiction; exact IH.
Qed.

Lemma preflight_spec W pylint s :
  (preflight W pylint s
     = (inr tt, {| st_heap := st_heap s; st_next := st_next s;
                   st_trace := st_trace s
                               ++ (if pylint then [EvRequireAzureCli] else []) |})
   /\ (pylint = true -> require_azure_cli W = None))
  \/ (preflight W pylint s
        = (inl (CLIError "usage error: --pylint requires Azure CLI to be installed."),
           {| st_heap := st_heap s; st_next := st_next s;
              st_trace := st_trace s ++ [EvRequireAzureCli] |})
      /\ pylint = true /\ require_azure_cli W <> None).
Proof.
  unfold preflight. destruct pylint; cbn.
  - unfold try_except, call_require_azure_cli.
    destruct (require_azure_cli W) as [msg |] eqn:Hreq; cbn.
    + right. repeat split. discriminate.
    + left. split; [reflexivity | reflexivity].
  - left. rewrite app_nil_r. destruct s. split; [reflexivity | discriminate].
Qed.

(** The whole of [check_style]: which events it adds and how it ends. *)
Lemma check_style_spec W modules pylint pep8 gs gt gr :
  behaves (check_style W modules pylint pep8 gs gt gr) (fun h t o =>
    discovery_calls t = [include_only_of modules]
    /\ (pylint = false -> pep8 = true -> Forall flake8_only_event t)
    /\ (pylint = true -> pep8 = false -> Forall pylint_only_event t)
    /\ (no_command_fails W -> Forall not_error_log t)
    /\ exists e,
         o = inl e
         /\ check_style_exit e
         /\ (e = CLIError "usage error: --pylint requires Azure CLI to be installed."
             -> pylint = true /\ require_azure_cli W <> None)
         /\ (e = IndexError "list index out of range"
             -> ~ (pylint = false /\ pep8 = true))
         /\ (forall code, e = SystemExit code -> code = exit_sum W h t)).
Proof.
  intros s. rewrite check_style_phases. unfold final_state, outcome.
  erewrite bind_inr by reflexivity.
  erewrite bind_inr by reflexivity.
  match goal with
  | |- context [bind (preflight W pylint) _ ?s0] =>
      destruct (preflight_spec W pylint s0) as [[Ep Hreq] | (Ep & Hp & Hreq)]
  end.
  - rewrite (bind_inr _ _ _ _ _ Ep).
    erewrite bind_inr by reflexivity.
    match goal with
    | |- context [report_phase W ?sel pylint pep8 ?s3] =>
        destruct (behaves_run _ _ s3 (report_phase_spec W sel pylint pep8))
          as (o & s4 & t & E & X & Fr & Ff & Fp & Fn & e & Ho & He);
        rewrite E
    end.
    cbn [fst snd]. cbn in X.
    set (pre := ([EvHeading "Style Check"; EvGetPathTable (include_only_of modules)]
                 ++ (if pylint then [EvRequireAzureCli] else [])
                 ++ [EvFilterByGitDiff
                       (prepare modules (get_path_table W (include_only_of modules)))
                       gs gt gr])%list).
    assert (Xpre : st_trace s4 = (st_trace s ++ pre ++ t)%list).
    { rewrite X. unfold pre. rewrite <- !app_assoc. reflexivity. }
    assert (Hquiet : Forall (fun e => is_subprocess e = false) pre)
      by (unfold pre; destruct pylint; repeat constructor).
    exists (pre ++ t)%list. split; [exact Xpre |].
    split.
    { rewrite discovery_calls_app, (discovery_calls_report t Fr), app_nil_r.
      unfold pre. destruct pylint; reflexivity. }
    split.
    { intros -> ->. apply Forall_app. split; [repeat constructor | auto]. }
    split.
    { intros -> ->. apply Forall_app. split; [repeat constructor | auto]. }
    split.
    { intros Hok. apply Forall_app. split; [| auto].
      unfold pre. destruct pylint; repeat constructor. }
    exists e. split; [exact Ho |].
    assert (Hsum : exit_sum W (st_trace s) (pre ++ t)
                   = exit_sum W (st_trace s ++ pre) t)
      by (apply exit_sum_quiet; exact Hquiet).
    assert (Hh : (st_trace s ++ pre)%list =
                 ((((st_trace s ++ [EvHeading "Style Check"])
                    ++ [EvGetPathTable (include_only_of modules)])
                   ++ (if pylint then [EvRequireAzureCli] else []))
                  ++ [EvFilterByGitDiff
                        (prepare modules (get_path_table W (include_only_of modules)))
                        gs gt gr])%list)
      by (unfold pre; rewrite <- !app_assoc; reflexivity).
    destruct He as [(_ & -> & _) | [(_ & Hn & ->) | (_ & ->)]].
    + split; [right; left; reflexivity |].
      split; [discriminate |]. split; [discriminate |]. discriminate.
    + split; [right; right; left; reflexivity |].
      split; [discriminate |]. split; [intros _; exact Hn |]. discriminate.
    + split; [right; right; right; eexists; reflexivity |].
      split; [discriminate |]. split; [discriminate |].
      intros code Hc. injection Hc as <-. rewrite Hsum, Hh. reflexivity.
  - rewrite (bind_inl _ _ _ _ _ Ep). cbn [fst snd].
    exists [EvHeading "Style Check"; EvGetPathTable (include_only_of modules);
            EvRequireAzureCli].
    split; [unfold extends; cbn; rewrite <- !app_assoc; reflexivity |].
    split; [reflexivity |].
    split; [intros Hf; congruence |].
    split; [intros _ _; repeat constructor |].
    split; [intros _; repeat constructor |].
    eexists. split; [reflexivity |].
    split; [left; reflexivity |].
    split; [intros _; split; assumption |].
    split; discriminate.
Qed.

(** ** Further properties of the runners and of [check_style] *)

Lemma extends_unique s s' t t' : extends s s' t -> extends s s' t' -> t = t'.
Proof.
  unfold extends. intros H H'. rewrite H in H'.
  apply app_inv_head in H'. exact H'.
Qed.

(** X3: [_run_pep8] never raises, and it runs one flake8 command for each
    path group that is not empty and none for an empty one: first the
    core and command-module paths with the first config file of
    [_config_file_path("flake8")], then the extension paths with the
    second. *)
Theorem run_pep8_commands W modules s :
  exists cli_config ext_config r s' t,
    _config_file_path W "flake8" s = (inr (cli_config, ext_config), s)
    /\ _run_pep8 W modules s = (inr r, s')
    /\ extends s s' t
    /\ commands t
       = (flake8_commands cli_config
            (values (pt_core modules) ++ values (pt_mod modules))
          ++ flake8_commands ext_config (values (pt_ext modules)))%list.
Proof.
  destruct (run_pep8_spec W modules s)
    as (cli & ext & r & s' & t & Ec & E & X & C & _).
  exists cli, ext, r, s', t. repeat split; assumption.
Qed.

(** X9: when [run_pylint] returns, it has run one pylint command for each
    path group that is not empty: first the core module paths, each
    extended by the segments of its last component, followed by the
    command-module paths; then, for the extensions, the first glob match
    under each extension path, in the order of the table.  Each command
    carries the group's rc file, the processor count and the options. *)
Theorem run_pylint_commands W modules checkers env disable_all enable s r s' :
  run_pylint W modules checkers env disable_all enable s = (inr r, s') ->
  exists cli_rc ext_rc t,
    _config_file_path W "pylint" s = (inr (cli_rc, ext_rc), s)
    /\ extends s s' t
    /\ commands t
       = (pylint_commands W cli_rc checkers disable_all enable
            (get_core_module_paths modules ++ values (pt_mod modules))
          ++ pylint_commands W ext_rc checkers disable_all enable
               (map (fun path =>
                       hd EmptyString
                          (glob W (OsPath.join path (EXTENSION_PREFIX W ++ "*"))))
                    (values (pt_ext modules))))%list.
Proof.
  intros Hrun.
  destruct (run_pylint_spec W modules checkers env disable_all enable s)
    as [[E _] | (cli & ext & r0 & s0 & t & Ec & E & X & C & _)].
  - rewrite E in Hrun. discriminate Hrun.
  - rewrite E in Hrun. injection Hrun as <- <-.
    exists cli, ext, t. repeat split; assumption.
Qed.

Lemma run_pylint_commands_witness :
  exists t,
    extends Samples.start
      (final_state (run_pylint Samples.clean Samples.table None None true
                      (Some ["W0611"]) Samples.start)) t
    /\ commands t
       = ["pylint /repo/src/azure-cli-core/azure/cli/core /repo/src/azure-cli-nspkg/azure/cli/nspkg /repo/src/command_modules/azure-cli-vm --rcfile=/home/dev/.azdev/config_files/cli_pylintrc --jobs 4 --disable=all --enable W0611";
          "pylint /ext/src/myext/azext_* --rcfile=/home/dev/.azdev/config_files/ext_pylintrc --jobs 4 --disable=all --enable W0611"].
Proof.
  destruct (run_pylint_commands Samples.clean Samples.table None None true
              (Some ["W0611"]) Samples.start
              (match outcome (run_pylint Samples.clean Samples.table None None true
                                (Some ["W0611"]) Samples.start) with
               | inr r => r
               | inl _ => CommandResultItem_None
               end)
              (final_state (run_pylint Samples.clean Samples.table None None true
                              (Some ["W0611"]) Samples.start))
              eq_refl)
    as (cli & ext & t & Ec & X & C).
  exists t. split; [exact X |].
  rewrite C. injection Ec as <- <-. reflexivity.
Defined.


(** X5: when [check_style] ends with [sys.exit], the exit status is the sum
    of the exit codes of all the commands it has run. *)
Theorem exit_status_is_sum_of_exit_codes W modules pylint pep8 gs gt gr s t code :
  extends s (final_state (check_style W modules pylint pep8 gs gt gr s)) t ->
  outcome (check_style W modules pylint pep8 gs gt gr s) = inl (SystemExit code) ->
  code = exit_sum W (st_trace s) t.
Proof.
  intros X Ho.
  destruct (check_style_spec W modules pylint pep8 gs gt gr s)
    as (t' & X' & _ & _ & _ & _ & e & Ho' & _ & _ & _ & Hsum).
  rewrite (extends_unique _ _ _ _ X X').
  apply Hsum. rewrite Ho in Ho'. injection Ho' as <-. reflexivity.
Qed.

Lemma exit_status_is_sum_of_exit_codes_witness :
  2 = exit_sum Samples.lint_fails []
        (st_trace (final_state (check_style Samples.lint_fails None false false
                                  None None None Samples.start))).
Proof.
  apply (exit_status_is_sum_of_exit_codes Samples.lint_fails None false false
           None None None Samples.start); reflexivity.
Defined.





Lemma pylint_only_trace t :
  Forall pylint_only_event t ->
  forall c, In c (commands t) -> String.prefix "pylint " c = true.
Proof.
  induction 1 as [| e t He _ IH]; [intros c [] |].
  destruct e; cbn in *; try assumption.
  intros c [<- | Hin]; [exact He | apply IH; exact Hin].
Qed.


(** X8: with only the lint flag set, [check_style] runs no command other
    than pylint. *)
Theorem lint_only_runs_only_pylint W modules gs gt gr s :
  exists t,
    extends s (final_state (check_style W modules true false gs gt gr s)) t
    /\ forall c, In c (commands t) -> String.prefix "pylint " c = true.
Proof.
  destruct (check_style_spec W modules true false gs gt gr s)
    as (t & X & _ & _ & Hp & _).
  exists t. split; [exact X |].
  apply pylint_only_trace, Hp; reflexivity.
Qed.

(** X12: every run of [check_style] calls the module discovery exactly
    once, also when it fails later; the names are passed on as given,
    except that the lists [['CLI']] and [['EXT']] are replaced by [None]. *)
Theorem discovery_is_called_once W modules pylint pep8 gs gt gr s :
  exists t,
    extends s (final_state (check_style W modules pylint pep8 gs gt gr s)) t
    /\ discovery_calls t
       = [match modules with
          | Some [name] =>
              if (String.eqb name "CLI" || String.eqb name "EXT")%bool
              then None else modules
          | _ => modules
          end].
Proof.
  destruct (check_style_spec W modules pylint pep8 gs gt gr s)
    as (t & X & Hd & _).
  exists t. split; [exact X |]. rewrite Hd. f_equal.
  unfold include_only_of, is_only.
  destruct modules as [[| name [| ? ?]] |]; reflexivity.
Qed.

(** ** The paths [run_pylint] lints for core modules *)

Lemma split_char_not_nil c s : PyStr.split_char c s <> [].
Proof.
  destruct s as [| a r]; cbn; [discriminate |].
  destruct (Ascii.eqb a c); [discriminate |].
  destruct (PyStr.split_char c r); discriminate.
Qed.

Lemma split_sep_no_sep p :
  Forall (fun x => has_sep x = false) (PyStr.split_char OsPath.sep p).
Proof.
  induction p as [| a r IH]; cbn.
  - repeat constructor.
  - destruct (Ascii.eqb a OsPath.sep) eqn:Ha.
    + constructor; [reflexivity | exact IH].
    + destruct (PyStr.split_char OsPath.sep r) as [| h t].
      * repeat constructor. cbn. rewrite Ha. reflexivity.
      * inversion IH as [| ? ? Hh Ht]; subst.
        constructor; [cbn; rewrite Ha, Hh; reflexivity | exact Ht].
Qed.

Lemma split_char_keeps_no_sep c s :
  has_sep s = false ->
  Forall (fun x => has_sep x = false) (PyStr.split_char c s).
Proof.
  induction s as [| a r IH]; cbn; intros H.
  - repeat constructor.
  - apply Bool.orb_false_iff in H. destruct H as [Ha Hr].
    specialize (IH Hr).
    destruct (Ascii.eqb a c).
    + constructor; [reflexivity | exact IH].
    + destruct (PyStr.split_char c r) as [| h t].
      * repeat constructor. cbn. rewrite Ha. reflexivity.
      * inversion IH as [| ? ? Hh Ht]; subst.
        constructor; [cbn; rewrite Ha, Hh; reflexivity | exact Ht].
Qed.

Lemma last_Forall {A} (P : A -> Prop) l d : P d -> Forall P l -> P (last l d).
Proof.
  intros Hd H. induction H as [| x l Hx Hl IH]; [exact Hd |].
  destruct l; [exact Hx | exact IH].
Qed.

Lemma split_tail_no_sep p : has_sep (OsPath.split_tail p) = false.
Proof.
  unfold OsPath.split_tail.
  apply (last_Forall (fun x => has_sep x = false)); [reflexivity |].
  apply split_sep_no_sep.
Qed.

Lemma no_sep_not_absolute b :
  has_sep b = false -> PyStr.startswith b (String OsPath.sep EmptyString) = false.
Proof.
  destruct b as [| a r]; [reflexivity |]. intros H. cbn in H.
  apply Bool.orb_false_iff in H. destruct H as [Ha _].
  unfold PyStr.startswith.
  destruct (String.prefix _ _) eqn:E; [| reflexivity].
  apply prefix_correct in E. cbn in E. injection E as E _. subst a.
  rewrite Ascii.eqb_refl in Ha. discriminate Ha.
Qed.

Lemma join_under a b :
  PyStr.startswith b (String OsPath.sep EmptyString) = false ->
  starts_with (OsPath.join a b) a.
Proof.
  intros H. unfold OsPath.join. rewrite H.
  destruct (negb (PyStr.truthy a) || PyStr.endswith_char a OsPath.sep)%bool;
    eexists; reflexivity.
Qed.

Lemma fold_join_under segments a :
  Forall (fun b => has_sep b = false) segments ->
  starts_with (fold_left OsPath.join segments a) a.
Proof.
  intros H. revert a. induction H as [| b l Hb _ IH]; intros a; cbn.
  - exists EmptyString. symmetry. apply str_app_nil_r.
  - destruct (IH (OsPath.join a b)) as (rest & E).
    destruct (join_under a b (no_sep_not_absolute b Hb)) as (rest' & E').
    exists (rest' ++ rest). rewrite E, E', str_app_assoc. reflexivity.
Qed.

(** X10: the path [run_pylint] lints for a core module always lies under
    the module's own path: the segments appended come from the last path
    component, hold no separator and so never replace the path. *)
Theorem core_module_path_under_module p :
  exists rest, core_module_path p = p ++ rest.
Proof.
  unfold core_module_path.
  apply fold_join_under, split_char_keeps_no_sep, split_tail_no_sep.
Qed.

Lemma split_tail_trailing_sep p :
  PyStr.endswith_char p OsPath.sep = true -> OsPath.split_tail p = EmptyString.
Proof.
  unfold OsPath.split_tail.
  induction p as [| a r IH]; cbn; [discriminate |].
  destruct r as [| b r'].
  - intros Ha. rewrite Ha. reflexivity.
  - intros H. specialize (IH H).
    pose proof (split_char_not_nil OsPath.sep (String b r')) as Hne.
    destruct (Ascii.eqb a OsPath.sep).
    + destruct (PyStr.split_char OsPath.sep (String b r')) as [| h t] eqn:Es;
        [contradiction | exact IH].
    + destruct (PyStr.split_char OsPath.sep (String b r')) as [| h t] eqn:Es;
        [contradiction |].
      destruct t as [| h' t']; [| exact IH].
      cbn in IH. subst h. exfalso.
      (* the only segment is empty, so the rest holds no character *)
      cbn in Es. destruct (Ascii.eqb b OsPath.sep).
      * injection Es as Es. exact (split_char_not_nil _ _ Es).
      * destruct (PyStr.split_char OsPath.sep r'); discriminate.
Qed.

(** X13: a core module path that ends with the separator has an empty last
    component, so nothing is appended: it is linted as it is. *)
Theorem core_module_path_trailing_sep p :
  PyStr.endswith_char p OsPath.sep = true -> core_module_path p = p.
Proof.
  intros H. unfold core_module_path.
  rewrite (split_tail_trailing_sep p H). cbn.
  unfold OsPath.join. cbn. rewrite H, Bool.orb_true_r. apply str_app_nil_r.
Qed.

Lemma core_module_path_trailing_sep_witness :
  core_module_path "/repo/src/azure-cli-core/" = "/repo/src/azure-cli-core/".
Proof. apply core_module_path_trailing_sep. reflexivity. Defined.

(** ** What reaches the filter, and what a missing glob match does *)

Lemma pop_In k k' v d : In (k', v) (pop k d) <-> In (k', v) d /\ k' <> k.
Proof.
  unfold pop. rewrite filter_In. cbn.
  rewrite Bool.negb_true_iff, String.eqb_neq. reflexivity.
Qed.

(** X11: in a run that reaches the filter, the table the filter is applied
    to holds, unless the list is [['EXT']], the command modules as
    discovered and exactly the discovered core entries other than the two
    non-modules; unless the list is [['CLI']], it holds the extensions as
    discovered. *)
Theorem selection_keeps_other_entries W modules pylint pep8 gs gt gr s :
  (pylint = true -> require_azure_cli W = None) ->
  let discovered := get_path_table W (include_only_of modules) in
  exists t selected,
    extends s (final_state (check_style W modules pylint pep8 gs gt gr s)) t
    /\ filter_calls t = [selected]
    /\ (is_only "EXT" modules = false ->
        pt_mod selected = pt_mod discovered
        /\ forall k v,
             In (k, v) (pt_core selected)
             <-> In (k, v) (pt_core discovered)
                 /\ k <> "azure-cli-nspkg"
                 /\ k <> "azure-cli-command_modules-nspkg")
    /\ (is_only "CLI" modules = false -> pt_ext selected = pt_ext discovered).
Proof.
  intros Hpre. cbv zeta.
  destruct (check_style_reaches_filter W modules pylint pep8 gs gt gr s Hpre)
    as (post & X & F).
  eexists _, (table_before_filter W modules). split; [exact X |].
  split.
  { rewrite !filter_calls_app. cbn. rewrite (filter_calls_report post F).
    destruct pylint; reflexivity. }
  unfold table_before_filter, include_only_of. cbv zeta. split.
  - intros Hext. rewrite Hext.
    destruct (is_only "CLI" modules); cbn; (split; [reflexivity |]);
      intros k v; rewrite !pop_In; tauto.
  - intros Hcli. rewrite Hcli.
    destruct (is_only "EXT" modules); reflexivity.
Qed.

Lemma selection_keeps_other_entries_witness :
  exists t,
    extends Samples.start
      (final_state (check_style Samples.clean (Some ["vm"]) false true
                      None None None Samples.start)) t
    /\ filter_calls t
       = [{| pt_core := [("azure-cli-core", "/repo/src/azure-cli-core")];
             pt_mod := [("vm", "/repo/src/command_modules/azure-cli-vm")];
             pt_ext := [("myext", "/ext/src/myext")] |}].
Proof.
  destruct (selection_keeps_other_entries Samples.clean (Some ["vm"]) false true
              None None None Samples.start)
    as (t & selected & X & Hf & _).
  - intros H. discriminate H.
  - exists t. split; [exact X |].
    assert (E : filter_calls t
                = filter_calls
                    (st_trace (final_state (check_style Samples.clean (Some ["vm"])
                                              false true None None None
                                              Samples.start))))
      by (rewrite X; reflexivity).
    rewrite E. reflexivity.
Defined.

Lemma run_pylint_missing_match W modules checkers env disable_all enable s :
  (exists path, In path (values (pt_ext modules))
                /\ glob W (ext_pattern W path) = []) ->
  run_pylint W modules checkers env disable_all enable s
    = (inl (IndexError "list index out of range"), s).
Proof.
  intros (path & Hin & Hg). unfold run_pylint. cbv zeta.
  destruct (ext_glob_paths_cases W (values (pt_ext modules)) s)
    as [(found & _ & _ & Hall) | (E & _)].
  - exfalso. exact (Hall path Hin Hg).
  - apply bind_inl. exact E.
Qed.

(** X14: when pylint is to run (the lint flag is set, or no flag is) and
    the filtered table has an extension path without a glob match,
    [check_style] ends with the [IndexError]: no command has been run, for
    pylint or for flake8, and nothing is logged as an error. *)
Theorem missing_glob_match_aborts W modules pylint pep8 gs gt gr s :
  (pylint = true -> require_azure_cli W = None) ->
  (pylint = true \/ pep8 = false) ->
  (exists path,
      In path (values (pt_ext (filter_by_git_diff W (table_before_filter W modules)
                                 gs gt gr)))
      /\ glob W (OsPath.join path (EXTENSION_PREFIX W ++ "*")) = []) ->
  outcome (check_style W modules pylint pep8 gs gt gr s)
    = inl (IndexError "list index out of range")
  /\ exists t,
       extends s (final_state (check_style W modules pylint pep8 gs gt gr s)) t
       /\ commands t = []
       /\ logged_errors t = [].
Proof.
  intros Hpre Hflags Hmiss.
  rewrite check_style_phases. unfold final_state, outcome.
  erewrite bind_inr by reflexivity.
  erewrite bind_inr by reflexivity.
  match goal with
  | |- context [bind (preflight W pylint) _ ?s0] =>
      destruct (preflight_spec W pylint s0) as [[Ep _] | (_ & Hp & Hreq)]
  end.
  2:{ exfalso. apply Hreq, Hpre, Hp. }
  rewrite (bind_inr _ _ _ _ _ Ep).
  erewrite bind_inr by reflexivity.
  change (prepare modules (get_path_table W (include_only_of modules)))
    with (table_before_filter W modules).
  set (selected := filter_by_git_diff W (table_before_filter W modules) gs gt gr)
    in *.
  assert (Hany : any_selected selected = true).
  { destruct Hmiss as (path & Hin & _). unfold any_selected. cbn.
    destruct (pt_ext selected); [destruct Hin |].
    rewrite !Bool.orb_true_r. reflexivity. }
  unfold report_phase. rewrite Hany. cbn [negb]. cbv zeta.
  match goal with
  | |- context [bind (when ?b (display ?m)) _ ?s2] =>
      destruct (when_display_spec b m s2) as (s3 & d1 & E1 & X1 & D1)
  end.
  rewrite (bind_inr _ _ _ _ _ E1).
  match goal with
  | |- context [bind (when ?b (display ?m)) _ s3] =>
      destruct (when_display_spec b m s3) as (s4 & d2 & E2 & X2 & D2)
  end.
  rewrite (bind_inr _ _ _ _ _ E2).
  assert (Hlint : (if negb (pylint || pep8) then true else pylint) = true)
    by (destruct pylint, pep8; try reflexivity; destruct Hflags; discriminate).
  rewrite Hlint. unfold run_tools, pylint_step.
  erewrite bind_inl.
  2:{ apply bind_inl. apply run_pylint_missing_match. exact Hmiss. }
  cbn [fst snd]. split; [reflexivity |].
  exists ([EvHeading "Style Check"; EvGetPathTable (include_only_of modules)]
          ++ (if pylint then [EvRequireAzureCli] else [])
          ++ [EvFilterByGitDiff (table_before_filter W modules) gs gt gr]
          ++ d1 ++ d2)%list.
  split; [unfold extends; rewrite X2, X1; cbn; rewrite <- !app_assoc; reflexivity |].
  assert (Hc : forall d, Forall is_display d -> commands d = [] /\ logged_errors d = []).
  { induction 1 as [| e d He _ [IHc IHl]]; [split; reflexivity |].
    destruct e; cbn in *; try contradiction. split; assumption. }
  destruct (Hc (d1 ++ d2)%list) as [Hcd Hld];
    [apply Forall_app; split; assumption |].
  destruct pylint; cbn; split; assumption.
Qed.

Lemma missing_glob_match_aborts_witness :
  outcome (check_style Samples.no_glob_match None false false None None None
             Samples.start)
    = inl (IndexError "list index out of range")
  /\ exists t,
       extends Samples.start
         (final_state (check_style Samples.no_glob_match None false false
                         None None None Samples.start)) t
       /\ commands t = []
       /\ logged_errors t = [].
Proof.
  apply (missing_glob_match_aborts Samples.no_glob_match None false false
           None None None Samples.start).
  - intros H. discriminate H.
  - right. reflexivity.
  - exists "/ext/src/myext". split; [left; reflexivity | reflexivity].
Defined.
